(** * Information-economics teaching tool: contract design, lemon market,
      moral hazard and education signalling

    A shallow embedding of the computational core of [Simsoft/sim_soft_4.py]
    (and of [LemonMarketSimulator.run] from [SimTest/APPUITest5.py]).

    Numbers.  Python [float]s are embedded as exact numbers: rationals [Q]
    wherever the code only adds, multiplies, divides, compares and rounds
    (so that every definition runs), and reals [R] for the CRRA utility,
    which needs [math.log] and [**] with a real exponent.  Rounding error of
    binary floating point, overflow and NaN inputs are outside the model;
    the concrete inputs used below are chosen so that every intermediate
    value is a dyadic rational or far from a comparison boundary.
    Python [int]s are [Z]. *)

From Stdlib Require Import ZArith QArith Qround Qabs Lia Lra Lqa List String Bool.
From Stdlib Require Import Reals.
Import ListNotations.

(** ** Python numeric primitives on exact rationals *)

Module PyNum.
Local Open Scope Q_scope.

(** [x < y] and [x <= y] as the booleans Python computes. *)
Definition ltb (x y : Q) : bool := negb (Qle_bool y x).
Definition leb (x y : Q) : bool := Qle_bool x y.
Definition gtb (x y : Q) : bool := ltb y x.
Definition geb (x y : Q) : bool := leb y x.

(** [max(a, b)]: the first argument unless the second is strictly larger. *)
Definition max (a b : Q) : Q := if ltb a b then b else a.

(** [min(a, b)]: the first argument unless the second is strictly smaller. *)
Definition min (a b : Q) : Q := if ltb b a then b else a.

(** [round(x)]: nearest integer, ties to the even neighbour. *)
Definition round (x : Q) : Z :=
  let f := Qfloor x in
  let r := x - inject_Z f in
  if ltb r (1 # 2) then f
  else if ltb (1 # 2) r then (f + 1)%Z
  else if Z.even f then f else (f + 1)%Z.

(** [round(x, 2)]: nearest multiple of 0.01, ties to the even cent. *)
Definition round2 (x : Q) : Q := inject_Z (round (x * 100)) / 100.

(** Float division [x / y], raising [ZeroDivisionError] (here [None]) on a
    zero divisor. *)
Definition fdiv (x y : Q) : option Q :=
  if Qeq_bool y 0 then None else Some (x / y).

End PyNum.

(** ** Principal-agent contract design *)

Module PrincipalAgent.
Local Open Scope Q_scope.

(** The two effort levels, ['努力'] and ['偷懒'] in the source. *)
Inductive EffortChoice := Effort | Shirk.

(** [PrincipalAI]: the five fields of [__init__], and the four attributes
    that only exist once [propose_contract] has stored them. *)
Record PrincipalAI := mkPrincipalAI {
  P_U_res : Q;
  P_res_high : Q;
  P_res_low : Q;
  P_p_high : Q;
  P_p_low : Q;
  P_cost_high_var : option Q;
  P_cost_low_var : option Q;
  P_w_high : option Q;
  P_w_low : option Q
}.

Definition PrincipalAI_init : PrincipalAI :=
  mkPrincipalAI 0 0 0 0 0 None None None None.

(** [PrincipalAI.set] *)
Definition PrincipalAI_set (self : PrincipalAI)
    (res_high res_low p_high p_low U_res : Q) : PrincipalAI :=
  mkPrincipalAI U_res res_high res_low p_high p_low
    (P_cost_high_var self) (P_cost_low_var self) (P_w_high self) (P_w_low self).

(** The threshold [1e-8] below which the probability gap counts as zero. *)
Definition eps : Q := 1 # 100000000.

(** The 50%-of-revenue pair returned by every fallback branch. *)
Definition fallback (Y_H Y_L : Q) : Q * Q :=
  let share := 1 # 2 in
  (PyNum.round2 (share * Y_H), PyNum.round2 (share * Y_L)).

(** [PrincipalAI.propose_contract]: the new object state and the returned
    pair [(w_high, w_low)].  The two early fallbacks return before
    [self.w_high] and [self.w_low] are assigned. *)
Definition propose_contract (self : PrincipalAI) (c_high c_low : Q)
    : PrincipalAI * (Q * Q) :=
  let self1 := mkPrincipalAI (P_U_res self) (P_res_high self) (P_res_low self)
                 (P_p_high self) (P_p_low self) (Some c_high) (Some c_low)
                 (P_w_high self) (P_w_low self) in
  let store (w : Q * Q) :=
    mkPrincipalAI (P_U_res self) (P_res_high self) (P_res_low self)
      (P_p_high self) (P_p_low self) (Some c_high) (Some c_low)
      (Some (fst w)) (Some (snd w)) in
  let dc := c_high - c_low in
  let dp := P_p_high self - P_p_low self in
  let Y_H := P_res_high self in
  let Y_L := P_res_low self in
  let U0 := P_U_res self in
  if PyNum.leb dp eps || PyNum.leb Y_H Y_L then (self1, fallback Y_H Y_L)
  else
    let dY := Y_H - Y_L in
    let b_star := dc / (dp * dY) in
    if PyNum.gtb b_star 1 then (self1, fallback Y_H Y_L)
    else
      let E_Y := P_p_high self * Y_H + (1 - P_p_high self) * Y_L in
      let a_star := U0 + c_high - b_star * E_Y in
      let w_L := a_star + b_star * Y_L in
      let '(a_star, w_L) :=
        if PyNum.ltb w_L 0 then (a_star + - w_L, 0) else (a_star, w_L) in
      let w_H := a_star + b_star * Y_H in
      let '(w_H, w_L) :=
        if PyNum.gtb w_H Y_H then
          let drop := w_H - Y_H in
          let a_star := a_star - drop in
          (Y_H, PyNum.max 0 (a_star + b_star * Y_L))
        else (w_H, w_L) in
      if PyNum.ltb w_L 0 || PyNum.ltb w_H 0 || PyNum.gtb w_H Y_H then
        (store (fallback Y_H Y_L), fallback Y_H Y_L)
      else
        let w := (PyNum.round2 w_H, PyNum.round2 w_L) in
        (store w, w).

(** [AgentAI]: the fields of [__init__], the revenues that [set] adds, and
    the [_cache] attribute that [evaluate_contract] creates. *)
Record AgentAI := mkAgentAI {
  A_cost_high_var : Q;
  A_cost_low_var : Q;
  A_U_res : Q;
  A_p_high : Q;
  A_p_low : Q;
  A_res : option (Q * Q);
  A_cache : option (Q * Q)
}.

(** [AgentAI._expected_utility] *)
Definition _expected_utility (self : AgentAI) (w_high w_low : Q)
    (effort : EffortChoice) : Q :=
  match effort with
  | Effort => A_p_high self * (w_high - A_cost_high_var self)
              + (1 - A_p_high self) * (w_low - A_cost_high_var self)
  | Shirk => A_p_low self * (w_high - A_cost_low_var self)
             + (1 - A_p_low self) * (w_low - A_cost_low_var self)
  end.

(** [AgentAI.evaluate_contract]: acceptance, and the object with its cache. *)
Definition evaluate_contract (self : AgentAI) (w_high w_low : Q)
    : AgentAI * bool :=
  let UE := _expected_utility self w_high w_low Effort in
  let UL := _expected_utility self w_high w_low Shirk in
  let accept := PyNum.geb UE (A_U_res self) && PyNum.geb UE UL in
  (mkAgentAI (A_cost_high_var self) (A_cost_low_var self) (A_U_res self)
     (A_p_high self) (A_p_low self) (A_res self) (Some (UE, UL)), accept).

(** [AgentAI.choose_effort]: the cached utilities when there are any, else
    those of the wages passed in; ties go to effort. *)
Definition choose_effort (self : AgentAI) (w_high w_low : Q) : EffortChoice :=
  let '(UE, UL) :=
    match A_cache self with
    | Some c => c
    | None => (_expected_utility self w_high w_low Effort,
               _expected_utility self w_high w_low Shirk)
    end in
  if PyNum.geb UE UL then Effort else Shirk.

(** The agent the principal designs for: same probabilities and reservation
    utility, the costs handed to [propose_contract], nothing cached yet. *)
Definition agent_for (P : PrincipalAI) (c_high c_low : Q) : AgentAI :=
  mkAgentAI c_high c_low (P_U_res P) (P_p_high P) (P_p_low P)
    (Some (P_res_high P, P_res_low P)) None.

(** The intermediate values of [propose_contract] before any clipping,
    under the names the source gives them. *)
Definition b_star (self : PrincipalAI) (c_high c_low : Q) : Q :=
  (c_high - c_low)
  / ((P_p_high self - P_p_low self) * (P_res_high self - P_res_low self)).

Definition E_Y (self : PrincipalAI) : Q :=
  P_p_high self * P_res_high self + (1 - P_p_high self) * P_res_low self.

Definition a_star (self : PrincipalAI) (c_high c_low : Q) : Q :=
  P_U_res self + c_high - b_star self c_high c_low * E_Y self.

Definition w_L0 (self : PrincipalAI) (c_high c_low : Q) : Q :=
  a_star self c_high c_low + b_star self c_high c_low * P_res_low self.

Definition w_H0 (self : PrincipalAI) (c_high c_low : Q) : Q :=
  a_star self c_high c_low + b_star self c_high c_low * P_res_high self.

(** An amount in whole cents: rounding to two decimals leaves it as it is. *)
Definition is_cents (x : Q) : Prop := PyNum.round2 x == x.

End PrincipalAgent.

(** ** Lemon market simulator *)

Module LemonMarket.
Local Open Scope Q_scope.

(** The [history] dictionary: five parallel lists, and the ["terminal"] key
    that [_log_terminal] creates on first use. *)
Record History := mkHistory {
  h_high : list Z;
  h_low : list Z;
  h_q : list Q;
  h_tau : list Q;
  h_price : list Q;
  h_terminal : option (list string)
}.

Record LemonMarketSimulator := mkSim {
  total_cars : Z;
  high : Z;
  low : Z;
  tau : Q;
  Vh : Q;
  Vl : Q;
  beta : Q;
  gamma : Q;
  steps : Z;
  history : History
}.

(** [LemonMarketSimulator.__init__] (the seed only touches numpy's global
    generator, which the simulator never reads). *)
Definition new (total_cars : Z) (q0 V_high V_low beta gamma : Q) (steps : Z)
    : LemonMarketSimulator :=
  let high := PyNum.round (inject_Z total_cars * q0) in
  mkSim total_cars high (total_cars - high)%Z q0 V_high V_low beta gamma steps
    (mkHistory [] [] [] [] [] None).

(** The number of high-quality sellers left after the exit rule of one
    period at price [p_t]; [None] when the division by [Vh] raises. *)
Definition exit_high (self : LemonMarketSimulator) (p_t : Q) : option Z :=
  if PyNum.ltb p_t (Vh self) && (0 <? high self)%Z then
    match PyNum.fdiv p_t (Vh self) with
    | None => None
    | Some r =>
        let exit_ratio := gamma self * (1 - r) in
        let exit_num := Z.max 1 (PyNum.round (inject_Z (high self) * exit_ratio)) in
        Some (high self - Z.min exit_num (high self))%Z
    end
  else Some (high self).

(** [LemonMarketSimulator._step] *)
Definition _step (self : LemonMarketSimulator) : option LemonMarketSimulator :=
  let q_t := inject_Z (high self) / inject_Z (Z.max (high self + low self) 1) in
  let p_t := tau self * Vh self + (1 - tau self) * Vl self in
  match exit_high self p_t with
  | None => None
  | Some high' =>
      let tau1 := tau self + beta self * (q_t - tau self) in
      let tau' := PyNum.max 0 (PyNum.min 1 tau1) in
      let h := history self in
      Some (mkSim (total_cars self) high' (low self) tau' (Vh self) (Vl self)
              (beta self) (gamma self) (steps self)
              (mkHistory (h_high h ++ [high']) (h_low h ++ [low self])
                 (h_q h ++ [q_t]) (h_tau h ++ [tau']) (h_price h ++ [p_t])
                 (h_terminal h)))
  end.

(** [n] successive calls of [_step]. *)
Fixpoint step_n (n : nat) (self : LemonMarketSimulator)
    : option LemonMarketSimulator :=
  match n with
  | O => Some self
  | S k => match _step self with
           | None => None
           | Some s => step_n k s
           end
  end.

(** [LemonMarketSimulator._log_terminal] *)
Definition _log_terminal (self : LemonMarketSimulator) (msg : string)
    : LemonMarketSimulator :=
  let h := history self in
  let old := match h_terminal h with Some l => l | None => [] end in
  mkSim (total_cars self) (high self) (low self) (tau self) (Vh self) (Vl self)
    (beta self) (gamma self) (steps self)
    (mkHistory (h_high h) (h_low h) (h_q h) (h_tau h) (h_price h)
       (Some (old ++ [msg]))).

Definition depleted_msg : string := "高质量汽车已全部退出！".

(** The loop of [run]: at most [n] more periods, stopping with a terminal
    log entry as soon as no high-quality seller is left. *)
Fixpoint run_loop (n : nat) (self : LemonMarketSimulator)
    : option LemonMarketSimulator :=
  match n with
  | O => Some self
  | S k =>
      if (high self =? 0)%Z then Some (_log_terminal self depleted_msg)
      else match _step self with
           | None => None
           | Some s => run_loop k s
           end
  end.

(** [LemonMarketSimulator.run] (in [SimTest/APPUITest5.py]): the simulator
    after the loop; the value returned is its [history]. *)
Definition run (self : LemonMarketSimulator) : option LemonMarketSimulator :=
  run_loop (Z.to_nat (steps self)) self.

(** A list of counts in which every entry is strictly below the one before. *)
Fixpoint strictly_decreasing (l : list Z) : bool :=
  match l with
  | x :: (y :: _) as t => (y <? x)%Z && strictly_decreasing t
  | _ => true
  end.


(** The conditions under which the price stays below [Vh] for good: trust
    below one and adjusting at a speed below one, lemons worth less than
    good cars, and non-negative counts. *)
Definition underpriced (s : LemonMarketSimulator) : Prop :=
  tau s < 1 /\ Vl s < Vh s /\ ~ Vh s == 0 /\ 0 <= beta s < 1
  /\ (0 <= high s)%Z /\ (0 <= low s)%Z.

End LemonMarket.

(** ** Education signalling *)

Module Signaling.
Local Open Scope Q_scope.

(** What [_on_calculate] hands to the plot, [separating] and [e_star]
    included. *)
Record SignalingThresholds := mkThresholds {
  e_L : Q;
  e_H : Q;
  separating : bool;
  e_star : option Q
}.

(** The ways [_on_calculate] ends: an error dialog (title and message) after
    which nothing is computed, a [ZeroDivisionError], or thresholds that are
    logged and drawn. *)
Inductive Outcome :=
| ParameterError (title msg : string)
| ZeroDivisionError
| Thresholds (t : SignalingThresholds).

(** [SignalingModule._on_calculate] on the values read from the five input
    fields. *)
Definition _on_calculate (a1 a2 c1 c2 e_max_var : Q) : Outcome :=
  let e_max := PyNum.max (1 # 1000) e_max_var in
  if PyNum.leb a2 a1 then
    ParameterError "参数错误" "必须满足 a2 > a1 (学历溢价)！"
  else if PyNum.leb c1 c2 then
    ParameterError "参数错误" "必须满足 c1 > c2 (单交叉条件)！"
  else
    let delta_a := a2 - a1 in
    match PyNum.fdiv delta_a c1 with
    | None => ZeroDivisionError
    | Some e_L =>
        match PyNum.fdiv delta_a c2 with
        | None => ZeroDivisionError
        | Some e_H =>
            let separating := PyNum.ltb e_L e_H in
            let e_star := if separating then Some ((e_L + e_H) / 2) else None in
            Thresholds (mkThresholds e_L e_H separating e_star)
        end
    end.

End Signaling.

(** ** Insurance moral hazard *)

Module MoralHazard.
Local Open Scope R_scope.

(** Float values that may be infinite or undefined: utilities of
    non-positive wealth are [-inf], and sums and products of such values
    follow the IEEE rules. *)
Inductive xfloat := NInf | Fin (x : R) | PInf | NaN.

Definition Rltb (x y : R) : bool := if Rlt_dec x y then true else false.
Definition Rleb (x y : R) : bool := if Rle_dec x y then true else false.

(** A finite factor times a possibly infinite value. *)
Definition xscale (c : R) (x : xfloat) : xfloat :=
  match x with
  | Fin v => Fin (c * v)
  | NInf => if Rltb 0 c then NInf else if Rltb c 0 then PInf else NaN
  | PInf => if Rltb 0 c then PInf else if Rltb c 0 then NInf else NaN
  | NaN => NaN
  end.

Definition xadd (x y : xfloat) : xfloat :=
  match x, y with
  | NaN, _ | _, NaN => NaN
  | Fin a, Fin b => Fin (a + b)
  | NInf, PInf | PInf, NInf => NaN
  | NInf, _ | _, NInf => NInf
  | PInf, _ | _, PInf => PInf
  end.

(** [x < y]; every comparison with an undefined value is false. *)
Definition xltb (x y : xfloat) : bool :=
  match x, y with
  | NaN, _ | _, NaN => false
  | Fin a, Fin b => Rltb a b
  | NInf, NInf | PInf, _ => false
  | NInf, _ => true
  | Fin _, PInf => true
  | Fin _, NInf => false
  end.

(** [x <= y] *)
Definition xleb (x y : xfloat) : bool :=
  match x, y with
  | NaN, _ | _, NaN => false
  | Fin a, Fin b => Rleb a b
  | NInf, _ | _, PInf => true
  | _, _ => false
  end.

Definition xgtb (x y : xfloat) : bool := xltb y x.
Definition xgeb (x y : xfloat) : bool := xleb y x.

(** [max(a, b)] on such values. *)
Definition xmax (a b : xfloat) : xfloat := if xltb a b then b else a.

Definition Rmax_py (a b : R) : R := if Rltb a b then b else a.
Definition Rmin_py (a b : R) : R := if Rltb b a then b else a.

(** [1e-8], the half-width of the window around [gamma = 1]. *)
Definition tol : R := / 100000000.

(** The generic CRRA formula [(w ** (1 - gamma) - 1) / (1 - gamma)] for
    positive wealth. *)
Definition crra (w gamma : R) : R :=
  (Rpower w (1 - gamma) - 1) / (1 - gamma).

(** [MoralHazardModule._utility] *)
Definition _utility (w gamma : R) : xfloat :=
  if Rleb w 0 then NInf
  else if Rltb (Rabs (gamma - 1)) tol then Fin (ln w)
  else Fin (crra w gamma).

(** The values [_simulate] derives from its seven inputs. *)
Record Decision := mkDecision {
  premium : R;
  install_no_ins : bool;
  EU_no_ins_opt : xfloat;
  install_ins : bool;
  would_insure : bool;
  prob_actual : R;
  extra_loss : R
}.

(** The computation of [MoralHazardModule._simulate] (the report written to
    the log is left out). *)
Definition _simulate (w d p p_d c_d q gamma : R) : Decision :=
  let premium := d * p in
  let util := fun wealth => _utility wealth gamma in
  let EU_no_dev := xadd (xscale (1 - p) (util w)) (xscale p (util (w - d))) in
  let EU_dev := xadd (xscale (1 - p_d) (util (w - c_d)))
                     (xscale p_d (util (w - d - c_d))) in
  let install_no_ins := xgtb EU_dev EU_no_dev in
  let EU_no_ins_opt := xmax EU_no_dev EU_dev in
  let U_no_dev := util (w - premium) in
  let U_dev := util (w - premium - c_d) in
  let install_ins := xgtb U_dev U_no_dev in
  let would_insure := xgeb U_no_dev EU_no_ins_opt in
  let base_prob := if install_ins then p_d else p in
  let prob_actual := Rmin_py (Rmax_py (base_prob + q) 0) 1 in
  let extra_loss := if Rltb p prob_actual then d * (prob_actual - p) else 0 in
  mkDecision premium install_no_ins EU_no_ins_opt install_ins would_insure
    prob_actual extra_loss.

(** The order on utility values: [-inf] below everything defined. *)
Definition xle (x y : xfloat) : Prop :=
  match x, y with
  | NaN, _ | _, NaN => False
  | NInf, _ | _, PInf => True
  | Fin a, Fin b => a <= b
  | _, _ => False
  end.

End MoralHazard.

(** ** Exceptions *)

Module PyExc.

(** The exceptions the modelled code can raise. *)
Inductive exn := AttributeError | ZeroDivisionError | IndexError | ValueError.

(** A returned value, or the exception raised instead. *)
Inductive result (A : Type) := Ok (a : A) | Raise (e : exn).
Arguments Ok {A} a.
Arguments Raise {A} e.

End PyExc.

(** ** Principal-agent: incomes, counter-offer and demonstration costs *)

Module PrincipalAgentMore.
Import PyExc PrincipalAgent.
Local Open Scope Q_scope.

(** [PrincipalAI.agent_income]: it reads [self.w_high], [self.w_low] and the
    stored costs, which exist only after [propose_contract] has assigned
    them. *)
Definition agent_income (self : PrincipalAI) (effort : EffortChoice)
    : result Q :=
  match P_w_high self, P_w_low self with
  | Some w_high, Some w_low =>
      match effort with
      | Effort =>
          match P_cost_high_var self with
          | Some c =>
              Ok (PyNum.round2 (P_p_high self * (w_high - c)
                                + (1 - P_p_high self) * (w_low - c)))
          | None => Raise AttributeError
          end
      | Shirk =>
          match P_cost_low_var self with
          | Some c =>
              Ok (PyNum.round2 (P_p_low self * (w_high - c)
                                + (1 - P_p_low self) * (w_low - c)))
          | None => Raise AttributeError
          end
      end
  | _, _ => Raise AttributeError
  end.

(** [AgentAI.set] *)
Definition AgentAI_set (self : AgentAI) (res_high res_low p_high p_low U_res : Q)
    : AgentAI :=
  mkAgentAI (A_cost_high_var self) (A_cost_low_var self) U_res p_high p_low
    (Some (res_high, res_low)) (A_cache self).

(** [AgentAI.principal_income]; the revenues exist once [set] has run. *)
Definition principal_income (self : AgentAI) (effort : EffortChoice)
    (w_high w_low : Q) : result Q :=
  match A_res self with
  | None => Raise AttributeError
  | Some (res_high, res_low) =>
      match effort with
      | Effort => Ok (A_p_high self * (res_high - w_high)
                      + (1 - A_p_high self) * (res_low - w_low))
      | Shirk => Ok (A_p_low self * (res_high - w_high)
                     + (1 - A_p_low self) * (res_low - w_low))
      end
  end.

(** The total surplus [TS] that [counter_offer] splits, the wage gap [s]
    and the low wage [w_L_new] it aims at. *)
Definition co_TS (self : AgentAI) (R_H R_L pi_min : Q) : Q :=
  A_p_high self * R_H + (1 - A_p_high self) * R_L - A_cost_high_var self
  - pi_min - A_U_res self.

Definition co_s (self : AgentAI) : Q :=
  (A_cost_high_var self - A_cost_low_var self) / (A_p_high self - A_p_low self).

Definition co_w_L_new (self : AgentAI) (R_H R_L pi_min : Q) : Q :=
  A_cost_high_var self + A_U_res self + co_TS self R_H R_L pi_min / 2
  - A_p_high self * co_s self.

(** [AgentAI.counter_offer]: [Ok None] is the returned [None]. *)
Definition counter_offer (self : AgentAI) (w_high w_low min_principal_profit : Q)
    : result (option (Q * Q)) :=
  let c_H := A_cost_high_var self in
  let p_H := A_p_high self in
  let p_L := A_p_low self in
  match A_res self with
  | None => Raise AttributeError
  | Some (R_H, R_L) =>
      let U0 := A_U_res self in
      let pi_min := min_principal_profit in
      let dc := c_H - A_cost_low_var self in
      let dp := p_H - p_L in
      if PyNum.leb dp 0 then Ok None
      else
        let TE := p_H * R_H + (1 - p_H) * R_L - c_H in
        let TS := TE - pi_min - U0 in
        if PyNum.leb TS 0 then Ok None
        else
          let s := dc / dp in
          let E_w := c_H + U0 + TS / 2 in
          let w_L_new := E_w - p_H * s in
          let w_H_new := w_L_new + s in
          if PyNum.ltb w_L_new 0 then
            let w_L_alt := c_H + U0 - p_H * s in
            let w_H_alt := w_L_alt + s in
            if PyNum.ltb w_L_alt 0 then Ok None
            else Ok (Some (PyNum.round2 w_H_alt, PyNum.round2 w_L_alt))
          else Ok (Some (PyNum.round2 w_H_new, PyNum.round2 w_L_new))
  end.

(** [int(x)] on a float: truncation towards zero. *)
Definition trunc (x : Q) : Z := if PyNum.ltb x 0 then Qceiling x else Qfloor x.

(** The loop [while (c_H - c_L) > max_gap and c_H > hi_min: c_H -= 1], run
    for at most [fuel] rounds. *)
Fixpoint lower_cost (fuel : nat) (c_H c_L hi_min : Z) (max_gap : Q) : Z :=
  match fuel with
  | O => c_H
  | S k =>
      if PyNum.gtb (inject_Z (c_H - c_L)) max_gap && (hi_min <? c_H)%Z
      then lower_cost k (c_H - 1) c_L hi_min max_gap
      else c_H
  end.

(** [AgentAI.cost_set], with the two values drawn by [random.randint]
    passed in as [draw_H] (from [hi_min .. hi_max]) and [draw_L] (from
    [0 .. lo_max]); [randint] raises [ValueError] on an empty range.  The
    result is the pair [(cost_high_var, cost_low_var)] stored in the
    object.  The loop lowers [c_H] at most [c_H - hi_min] times. *)
Definition cost_set (res_high res_low : Q) (draw_H draw_L : Z)
    : result (Z * Z) :=
  let hi_min := trunc ((5 # 100) * res_high) in
  let hi_max := trunc ((15 # 100) * res_high) in
  if (hi_max <? hi_min)%Z then Raise ValueError
  else
    let c_H := draw_H in
    let lo_max := Z.max 1 (trunc (inject_Z c_H * (1 # 2))) in
    let c_L := draw_L in
    let max_gap := (res_high - res_low) / 4 in
    let c_H := lower_cost (Z.to_nat (c_H - hi_min)) c_H c_L hi_min max_gap in
    let c_L := if (c_H <=? c_L)%Z then Z.max 0 (c_H - 1) else c_L in
    Ok (c_H, c_L).

(** The ranges the two draws of [cost_set] come from. *)
Definition draws_in_range (res_high : Q) (draw_H draw_L : Z) : Prop :=
  (trunc ((5 # 100) * res_high) <= draw_H <= trunc ((15 # 100) * res_high))%Z
  /\ (0 <= draw_L <= Z.max 1 (trunc (inject_Z draw_H * (1 # 2))))%Z.

End PrincipalAgentMore.

(** ** Lemon market: the controller's loop and the CSV export *)

Module LemonMarketMore.
Import PyExc LemonMarket.
Local Open Scope Q_scope.

(** [l[-1]]: the last element, [IndexError] on an empty list. *)
Definition last_item {A : Type} (l : list A) : result A :=
  match rev l with
  | x :: _ => Ok x
  | [] => Raise IndexError
  end.

(** The loop of [AdverseSelectionModule._on_run] in [sim_soft_4.py]: step
    first, then stop as soon as the count just recorded is zero. *)
Fixpoint on_run_loop (n : nat) (sim : LemonMarketSimulator)
    : result LemonMarketSimulator :=
  match n with
  | O => Ok sim
  | S k =>
      match _step sim with
      | None => Raise ZeroDivisionError
      | Some s1 =>
          match last_item (h_high (history s1)) with
          | Raise e => Raise e
          | Ok hi => if (hi =? 0)%Z then Ok s1 else on_run_loop k s1
          end
      end
  end.

(** What the summary at the end of [_on_run] reports. *)
Record Summary := mkSummary {
  init_high : Z;
  init_price : Q;
  final_high : Z;
  final_q : Q;
  final_p : Q;
  collapsed : bool
}.

(** [_on_run] on a freshly built simulator: the loop, then the summary read
    from the last history entries. *)
Definition _on_run (sim : LemonMarketSimulator)
    : result (LemonMarketSimulator * Summary) :=
  let init_high := high sim in
  let init_price := tau sim * Vh sim + (1 - tau sim) * Vl sim in
  match on_run_loop (Z.to_nat (steps sim)) sim with
  | Raise e => Raise e
  | Ok s =>
      match last_item (h_high (history s)), last_item (h_q (history s)),
            last_item (h_price (history s)) with
      | Ok fh, Ok fq, Ok fp =>
          Ok (s, mkSummary init_high init_price fh fq fp (fh =? 0)%Z)
      | _, _, _ => Raise IndexError
      end
  end.

(** One line of the exported table: period, counts, share, trust, price. *)
Record Row := mkRow {
  row_t : Z;
  row_high : Z;
  row_low : Z;
  row_q : Q;
  row_tau : Q;
  row_price : Q
}.

(** [l[i]], [IndexError] when [i] is past the end. *)
Definition item {A : Type} (l : list A) (i : nat) : result A :=
  match nth_error l i with
  | Some x => Ok x
  | None => Raise IndexError
  end.

(** The row [_export_csv] writes for index [i]. *)
Definition export_row (h : History) (i : nat) : result Row :=
  match item (h_high h) i, item (h_low h) i, item (h_q h) i,
        item (h_tau h) i, item (h_price h) i with
  | Ok a, Ok b, Ok c, Ok d, Ok e => Ok (mkRow (Z.of_nat i + 1) a b c d e)
  | _, _, _, _, _ => Raise IndexError
  end.

(** The rows for the indices in [idx], stopping at the first error. *)
Fixpoint export_from (h : History) (idx : list nat) : result (list Row) :=
  match idx with
  | [] => Ok []
  | i :: rest =>
      match export_row h i with
      | Raise e => Raise e
      | Ok r => match export_from h rest with
                | Raise e => Raise e
                | Ok rs => Ok (r :: rs)
                end
      end
  end.

(** The data rows of [_export_csv]: one per index of the ["q"] list. *)
Definition export_rows (h : History) : result (list Row) :=
  export_from h (seq 0 (List.length (h_q h))).

(** The five history lists have the same length. *)
Definition aligned (h : History) (n : nat) : Prop :=
  List.length (h_high h) = n /\ List.length (h_low h) = n
  /\ List.length (h_q h) = n /\ List.length (h_tau h) = n
  /\ List.length (h_price h) = n.

(** From [s] to [s'] each of the five history lists has grown by [k]
    entries. *)
Definition aligned_growth (s s' : LemonMarketSimulator) (k : nat) : Prop :=
  List.length (h_high (history s')) = (List.length (h_high (history s)) + k)%nat
  /\ List.length (h_low (history s')) = (List.length (h_low (history s)) + k)%nat
  /\ List.length (h_q (history s')) = (List.length (h_q (history s)) + k)%nat
  /\ List.length (h_tau (history s')) = (List.length (h_tau (history s)) + k)%nat
  /\ List.length (h_price (history s'))
     = (List.length (h_price (history s)) + k)%nat.


(** Full trust, no lemons and at least one good car. *)
Definition steady (s : LemonMarketSimulator) : Prop :=
  tau s == 1 /\ low s = 0%Z /\ (1 <= high s)%Z.

(** Two simulators that differ at most in the ["terminal"] log. *)
Definition same_but_terminal (a b : LemonMarketSimulator) : Prop :=
  total_cars a = total_cars b /\ high a = high b /\ low a = low b
  /\ tau a = tau b /\ Vh a = Vh b /\ Vl a = Vl b /\ beta a = beta b
  /\ gamma a = gamma b /\ steps a = steps b
  /\ h_high (history a) = h_high (history b)
  /\ h_low (history a) = h_low (history b)
  /\ h_q (history a) = h_q (history b)
  /\ h_tau (history a) = h_tau (history b)
  /\ h_price (history a) = h_price (history b).

End LemonMarketMore.

(** ** Insurance moral hazard: the decision engine and its policy map *)

Module MoralHazardMore.
Import MoralHazard.
Local Open Scope R_scope.

(** [MoralHazardModule._decide] in [SimTest/APPUITest5.py]: the strategy
    category ([0] no insurance and no device, [1] no insurance with device,
    [2] insurance with device, [3] insurance without device) and the extra
    expected payout, counted only when insurance is bought. *)
Definition _decide (gamma q w d p p_d c_d : R) : Z * R :=
  let util := fun x => _utility x gamma in
  let premium := d * p in
  let EU_no_dev := xadd (xscale (1 - p) (util w)) (xscale p (util (w - d))) in
  let EU_dev := xadd (xscale (1 - p_d) (util (w - c_d)))
                     (xscale p_d (util (w - d - c_d))) in
  let install_no_ins := xgtb EU_dev EU_no_dev in
  let EU_no_ins_opt := if install_no_ins then EU_dev else EU_no_dev in
  let U_no_dev := util (w - premium) in
  let U_dev := util (w - premium - c_d) in
  let install_ins := xgtb U_dev U_no_dev in
  let would_insure := xgeb U_no_dev EU_no_ins_opt in
  let base_prob := if install_ins then p_d else p in
  let prob_actual := Rmin_py (Rmax_py (base_prob + q) 0) 1 in
  let extra_loss :=
    if would_insure && Rltb p prob_actual then d * (prob_actual - p) else 0 in
  let cat :=
    if negb would_insure && negb install_no_ins then 0%Z
    else if negb would_insure && install_no_ins then 1%Z
    else if would_insure && install_ins then 2%Z
    else 3%Z in
  (cat, extra_loss).

(** [np.linspace(a, b, n)[i]] for [n >= 2]. *)
Definition linspace (a b : R) (n i : nat) : R :=
  a + INR i * ((b - a) / INR (n - 1)).

(** The two grids filled by [_plot_policy_map]: row [i] is the risk
    aversion [linspace(-1, 3, 100)[i]], column [j] the moral-hazard
    increment [linspace(0, 1, 100)[j]]. *)
Definition policy_cell (w d p p_d c_d : R) (i j : nat) : Z * R :=
  _decide (linspace (-1) 3 100 i) (linspace 0 1 100 j) w d p p_d c_d.

Definition policy_map (w d p p_d c_d : R) : list (list (Z * R)) :=
  map (fun i => map (fun j => policy_cell w d p p_d c_d i j) (seq 0 100))
      (seq 0 100).

(** The finite value [_utility] takes on positive wealth. *)
Definition u_fin (gamma w : R) : R :=
  if Rltb (Rabs (gamma - 1)) tol then ln w else crra w gamma.

End MoralHazardMore.

(** ** Risk preference *)

Module RiskPreference.
Import MoralHazard.
Local Open Scope R_scope.

(** The three labels of [_classify_gamma]. *)
Inductive Preference := averse | neutral | preferring.

(** [RiskPreferenceModule._classify_gamma] *)
Definition _classify_gamma (g : R) : Preference :=
  if Rltb (Rabs (g - 1)) (/ 1000) then neutral
  else if Rltb g 1 then averse else preferring.

(** [x ** a] on floats, as far as the result is a real number: [None] when
    Python raises [ZeroDivisionError] (zero to a negative power) or answers
    with a complex number (a negative base with a fractional exponent). *)
Definition pypow (x a : R) : option R :=
  if Rltb 0 x then Some (Rpower x a)
  else if Rltb x 0 then
    if Req_dec_T (frac_part a) 0 then Some (powerRZ x (Int_part a)) else None
  else if Rltb 0 a then Some 0
  else if Rltb a 0 then None
  else Some 1.

(** The utility and its inverse chosen by [_util_funcs]: the identity in
    the neutral band, else [x ** g] and [y ** (1 / g)], the latter raising
    on [g = 0]. *)
Definition u (g x : R) : option R :=
  if Rltb (Rabs (g - 1)) (/ 1000) then Some x else pypow x g.

Definition u_inv (g y : R) : option R :=
  if Rltb (Rabs (g - 1)) (/ 1000) then Some y
  else if Req_dec_T g 0 then None else pypow y (1 / g).

(** The three remarks of [_append_note]. *)
Inductive Note := no_premium | wants_compensation | pays_for_risk.

(** [RiskPreferenceModule._append_note] *)
Definition _append_note (Ew CE : R) : Note :=
  if Rltb (Rabs (CE - Ew)) (/ 1000000) then no_premium
  else if Rltb CE Ew then wants_compensation
  else pays_for_risk.

(** What [_compute] logs. *)
Record Report := mkReport {
  pref : Preference;
  Ew : R;
  CE : R;
  diff : R;
  note : Note
}.

(** [RiskPreferenceModule._compute] on the values read from the inputs;
    [None] when a power is not a real number or raises. *)
Definition _compute (g p w1 w2 : R) : option Report :=
  match u g w1, u g w2 with
  | Some U1, Some U2 =>
      let Ew := p * w1 + (1 - p) * w2 in
      let EU := p * U1 + (1 - p) * U2 in
      match u_inv g EU with
      | Some CE =>
          Some (mkReport (_classify_gamma g) Ew CE (Ew - CE) (_append_note Ew CE))
      | None => None
      end
  | _, _ => None
  end.

End RiskPreference.

(** ** Principal-agent, the variant of [SimTest/APPUITest5.py] *)

Module Contract5.
Import PyExc PrincipalAgent.
Local Open Scope Q_scope.

(** [PrincipalAI.propose_contract]: the wages it stores are not rounded,
    the wages it returns are; the fallback returns without storing. *)
Definition propose_contract (self : PrincipalAI) (c_high c_low : Q)
    : result (PrincipalAI * (Q * Q)) :=
  let with_wages (w : option (Q * Q)) :=
    mkPrincipalAI (P_U_res self) (P_res_high self) (P_res_low self)
      (P_p_high self) (P_p_low self) (Some c_high) (Some c_low)
      (match w with Some x => Some (fst x) | None => P_w_high self end)
      (match w with Some x => Some (snd x) | None => P_w_low self end) in
  let dc := c_high - c_low in
  let dp := P_p_high self - P_p_low self in
  if PyNum.leb dp 0 then
    let share := 1 # 2 in
    let w_high := share * P_res_high self in
    let w_low := share * P_res_low self in
    Ok (with_wages None, (PyNum.round2 w_high, PyNum.round2 w_low))
  else
    let w_low := P_U_res self + c_high - P_p_high self * dc / dp in
    let w_low := PyNum.max 0 w_low in
    let w_high := w_low + dc / dp in
    if PyNum.gtb w_high (P_res_high self) then
      match PyNum.fdiv (P_res_high self) w_high with
      | None => Raise ZeroDivisionError
      | Some ratio =>
          let w_high := w_high * ratio in
          let w_low := w_low * ratio in
          Ok (with_wages (Some (w_high, w_low)),
              (PyNum.round2 w_high, PyNum.round2 w_low))
      end
    else
      Ok (with_wages (Some (w_high, w_low)),
          (PyNum.round2 w_high, PyNum.round2 w_low)).

(** [AgentAI._expected_utility] *)
Definition _expected_utility (self : AgentAI) (w_high w_low : Q)
    (effort : EffortChoice) : Q :=
  match effort with
  | Effort => A_p_high self * w_high + (1 - A_p_high self) * w_low
              - A_cost_high_var self
  | Shirk => A_p_low self * w_high + (1 - A_p_low self) * w_low
             - A_cost_low_var self
  end.

(** [AgentAI.evaluate_contract] *)
Definition evaluate_contract (self : AgentAI) (w_high w_low : Q)
    : AgentAI * bool :=
  let UE := _expected_utility self w_high w_low Effort in
  let UL := _expected_utility self w_high w_low Shirk in
  let accept := PyNum.geb UE (A_U_res self) && PyNum.geb UE UL in
  (mkAgentAI (A_cost_high_var self) (A_cost_low_var self) (A_U_res self)
     (A_p_high self) (A_p_low self) (A_res self) (Some (UE, UL)), accept).

(** The first two steps of [counter_offer]: widen the wage gap to
    [min_diff], then lift both wages until effort pays the reservation
    utility. *)
Definition repair (self : AgentAI) (min_diff w_high w_low : Q) : Q * Q :=
  let w_high := if PyNum.ltb (w_high - w_low) min_diff
                then w_low + min_diff else w_high in
  let EU := A_p_high self * w_high + (1 - A_p_high self) * w_low
            - A_cost_high_var self in
  if PyNum.ltb EU (A_U_res self) then
    let bump := A_U_res self - EU in (w_high + bump, w_low + bump)
  else (w_high, w_low).

(** [AgentAI.counter_offer]: [Ok None] is the returned [None]. *)
Definition counter_offer (self : AgentAI) (w_high w_low min_principal_profit : Q)
    : result (option (Q * Q)) :=
  let dc := A_cost_high_var self - A_cost_low_var self in
  let dp := A_p_high self - A_p_low self in
  match PyNum.fdiv dc dp with
  | None => Raise ZeroDivisionError
  | Some min_diff =>
      let w_high := if PyNum.ltb (w_high - w_low) min_diff
                    then w_low + min_diff else w_high in
      let EU := A_p_high self * w_high + (1 - A_p_high self) * w_low
                - A_cost_high_var self in
      let '(w_high, w_low) :=
        if PyNum.ltb EU (A_U_res self) then
          let bump := A_U_res self - EU in (w_high + bump, w_low + bump)
        else (w_high, w_low) in
      match A_res self with
      | None => Raise AttributeError
      | Some (res_high, res_low) =>
          let profit := A_p_high self * (res_high - w_high)
                        + (1 - A_p_high self) * (res_low - w_low) in
          if PyNum.geb profit min_principal_profit then
            Ok (Some (PyNum.round2 w_high, PyNum.round2 w_low))
          else
            let exp_wage := A_p_high self * w_high
                            + (1 - A_p_high self) * w_low in
            match PyNum.fdiv (A_U_res self + A_cost_high_var self) exp_wage with
            | None => Raise ZeroDivisionError
            | Some a_ir =>
                let num := A_p_high self * res_high
                           + (1 - A_p_high self) * res_low in
                match PyNum.fdiv (num - min_principal_profit) exp_wage with
                | None => Raise ZeroDivisionError
                | Some a_pi0 =>
                    if PyNum.leb a_ir a_pi0 then
                      Ok (Some (PyNum.round2 (w_high * a_ir),
                                PyNum.round2 (w_low * a_ir)))
                    else Ok None
                end
            end
      end
  end.

End Contract5.

(** * Properties *)

(** ** Comparisons and rounding *)

Module PyNumFacts.
Import PyNum.
Local Open Scope Q_scope.

Lemma ltb_true (x y : Q) : ltb x y = true <-> x < y.
Proof.
  unfold ltb. rewrite negb_true_iff, <- not_true_iff_false, Qle_bool_iff.
  split; [apply Qnot_le_lt | apply Qlt_not_le].
Qed.

Lemma ltb_false (x y : Q) : ltb x y = false <-> y <= x.
Proof.
  unfold ltb. rewrite negb_false_iff. apply Qle_bool_iff.
Qed.

Lemma leb_true (x y : Q) : leb x y = true <-> x <= y.
Proof. apply Qle_bool_iff. Qed.

Lemma leb_false (x y : Q) : leb x y = false <-> y < x.
Proof.
  unfold leb. rewrite <- not_true_iff_false, Qle_bool_iff.
  split; [apply Qnot_le_lt | apply Qlt_not_le].
Qed.

Lemma gtb_false (x y : Q) : gtb x y = false <-> x <= y.
Proof. apply ltb_false. Qed.

Lemma gtb_true (x y : Q) : gtb x y = true <-> y < x.
Proof. apply ltb_true. Qed.

Lemma geb_true (x y : Q) : geb x y = true <-> y <= x.
Proof. apply leb_true. Qed.

Lemma geb_false (x y : Q) : geb x y = false <-> x < y.
Proof. apply leb_false. Qed.

(** Case analysis on a comparison, with the fact it decides. *)
Lemma ltb_cases (x y : Q) :
  (ltb x y = true /\ x < y) \/ (ltb x y = false /\ y <= x).
Proof.
  destruct (ltb x y) eqn:E; [left | right]; split; trivial.
  - now apply ltb_true.
  - now apply ltb_false.
Qed.

Lemma max_lower (a b : Q) : a <= max a b.
Proof.
  unfold max. destruct (ltb_cases a b) as [[-> H] | [-> H]]; lra.
Qed.

Lemma max_cases (a b : Q) :
  (a < b /\ max a b = b) \/ (b <= a /\ max a b = a).
Proof.
  unfold max. destruct (ltb_cases a b) as [[-> H] | [-> H]]; auto.
Qed.

Lemma min_cases (a b : Q) :
  (b < a /\ min a b = b) \/ (a <= b /\ min a b = a).
Proof.
  unfold min. destruct (ltb_cases b a) as [[-> H] | [-> H]]; auto.
Qed.

(** Clamping to the unit interval lands in the unit interval. *)
Lemma clamp_unit (x : Q) : 0 <= max 0 (min 1 x) <= 1.
Proof.
  destruct (max_cases 0 (min 1 x)) as [[H ->] | [H ->]];
    destruct (min_cases 1 x) as [[H1 E] | [H1 E]]; rewrite ?E in *; lra.
Qed.

(** [round] picks the floor or its successor. *)
Lemma round_floor (x : Q) :
  round x = Qfloor x \/ round x = (Qfloor x + 1)%Z.
Proof.
  unfold round.
  destruct (ltb _ (1 # 2)); auto.
  destruct (ltb (1 # 2) _); auto.
  destruct (Z.even _); auto.
Qed.

(** [round x] is within one half of [x]. *)
Lemma round_near (x : Q) :
  inject_Z (round x) - (1 # 2) <= x <= inject_Z (round x) + (1 # 2).
Proof.
  pose proof (Qfloor_le x) as Hlo. pose proof (Qlt_floor x) as Hhi.
  rewrite inject_Z_plus in Hhi. change (inject_Z 1) with 1 in Hhi.
  unfold round.
  destruct (ltb_cases (x - inject_Z (Qfloor x)) (1 # 2)) as [[-> H] | [-> H]].
  - lra.
  - destruct (ltb_cases (1 # 2) (x - inject_Z (Qfloor x))) as [[-> H'] | [-> H']].
    + rewrite inject_Z_plus. change (inject_Z 1) with 1. lra.
    + destruct (Z.even (Qfloor x)).
      * lra.
      * rewrite inject_Z_plus. change (inject_Z 1) with 1. lra.
Qed.

(** Rounding never reorders two numbers. *)
Lemma round_mono (x y : Q) : x <= y -> (round x <= round y)%Z.
Proof.
  intros Hxy.
  pose proof (Qfloor_resp_le _ _ Hxy) as Hf.
  destruct (Z.eq_dec (Qfloor x) (Qfloor y)) as [E | NE].
  - unfold round. rewrite <- E.
    destruct (ltb_cases (x - inject_Z (Qfloor x)) (1 # 2)) as [[-> H1] | [-> H1]];
    destruct (ltb_cases (y - inject_Z (Qfloor x)) (1 # 2)) as [[-> H2] | [-> H2]];
      try lia; try lra.
    + destruct (ltb (1 # 2) _); [lia |]. destruct (Z.even _); lia.
    + destruct (ltb_cases (1 # 2) (x - inject_Z (Qfloor x))) as [[-> H3] | [-> H3]];
      destruct (ltb_cases (1 # 2) (y - inject_Z (Qfloor x))) as [[-> H4] | [-> H4]];
        try lia; try lra; destruct (Z.even _); lia.
  - destruct (round_floor x) as [-> | ->], (round_floor y) as [-> | ->]; lia.
Qed.

Lemma round_Z (n : Z) : round (inject_Z n) = n.
Proof.
  unfold round. rewrite Qfloor_Z.
  destruct (ltb_cases (inject_Z n - inject_Z n) (1 # 2)) as [[-> H] | [-> H]];
    [reflexivity | lra].
Qed.

#[export] Instance round_comp : Proper (Qeq ==> eq) round.
Proof.
  intros x y E. apply Z.le_antisymm; apply round_mono; rewrite E; apply Qle_refl.
Qed.

#[export] Instance round2_comp : Proper (Qeq ==> eq) round2.
Proof.
  intros x y E. unfold round2. now rewrite E.
Qed.

(** [round(x, 2)] is within half a cent of [x]. *)
Lemma round2_near (x : Q) : x - (1 # 200) <= round2 x <= x + (1 # 200).
Proof.
  pose proof (round_near (x * 100)) as H. unfold round2.
  set (n := inject_Z (round (x * 100))) in *.
  unfold Qdiv. change (/ 100) with (1 # 100). lra.
Qed.


(** On whole cents [round(x, 2)] changes nothing. *)
Lemma round2_cents (x : Q) (n : Z) : x * 100 == inject_Z n -> round2 x == x.
Proof.
  intros H. unfold round2. rewrite H, round_Z.
  unfold Qdiv. change (/ 100) with (1 # 100). lra.
Qed.



Lemma fdiv_some (x y : Q) : ~ y == 0 -> fdiv x y = Some (x / y).
Proof.
  intros H. unfold fdiv. destruct (Qeq_bool y 0) eqn:E; [| reflexivity].
  apply Qeq_bool_iff in E. contradiction.
Qed.

End PyNumFacts.

(** ** Contract design *)

Module ContractFacts.
Import PyNum PyNumFacts PrincipalAgent.
Local Open Scope Q_scope.


Lemma choose_effort_fresh_shirk (A : AgentAI) (w_high w_low : Q) :
  A_cache A = None ->
  _expected_utility A w_high w_low Effort < _expected_utility A w_high w_low Shirk ->
  choose_effort A w_high w_low = Shirk.
Proof.
  intros HC H. unfold choose_effort. rewrite HC.
  now apply geb_false in H; rewrite H.
Qed.










(** Rounding alone can also lift [wage_high] above a [revenue_high] that is
    not in whole cents: the wage is clipped to [131/1024] and then rounded
    up to [0.13]. *)
Example propose_contract_rounds_above_revenue :
  let P := mkPrincipalAI 10 (131 # 1024) 0 (3 # 4) (1 # 4) None None None None in
  let w := snd (propose_contract P 0 0) in
  fst w == 13 # 100 /\ P_res_high P < fst w.
Proof. vm_compute. split; reflexivity. Qed.

(** C2 (as amended).  When the probability gap is at most [1e-8] (in
    particular when [prob_high <= prob_low]) or [revenue_high <=
    revenue_low], [propose_contract] returns the 50% revenue shares rounded
    to cents: [round(0.5 * revenue_high, 2)] and [round(0.5 * revenue_low,
    2)]; these are the exact half revenues whenever the halves are whole
    numbers of cents. *)
Theorem propose_contract_fallback (P : PrincipalAI) (c_high c_low : Q) :
  P_p_high P - P_p_low P <= eps \/ P_res_high P <= P_res_low P ->
  let w := snd (propose_contract P c_high c_low) in
  w = (round2 ((1 # 2) * P_res_high P), round2 ((1 # 2) * P_res_low P))
  /\ (is_cents ((1 # 2) * P_res_high P) -> fst w == (1 # 2) * P_res_high P)
  /\ (is_cents ((1 # 2) * P_res_low P) -> snd w == (1 # 2) * P_res_low P).
Proof.
  intros H w.
  assert (E : w = (round2 ((1 # 2) * P_res_high P),
                   round2 ((1 # 2) * P_res_low P))).
  { subst w. unfold propose_contract. cbv zeta.
    destruct H as [H | H]; apply leb_true in H; rewrite H.
    - reflexivity.
    - rewrite orb_true_r. reflexivity. }
  split; [exact E |]. rewrite E. cbn [fst snd]. unfold is_cents. auto.
Qed.

Lemma propose_contract_fallback_witness :
  let P := mkPrincipalAI 0 100 20 (2 # 5) (2 # 5) None None None None in
  let w := snd (propose_contract P 10 5) in
  w = (round2 ((1 # 2) * 100), round2 ((1 # 2) * 20))
  /\ (is_cents ((1 # 2) * 100) -> fst w == (1 # 2) * 100)
  /\ (is_cents ((1 # 2) * 20) -> snd w == (1 # 2) * 20).
Proof.
  intros P. apply (propose_contract_fallback P 10 5).
  left. vm_compute. discriminate.
Defined.

(** C2 fails as stated: with [prob_high = prob_low] and
    [revenue_high = 1/8], half the revenue is [0.0625] but the fallback
    returns it rounded to cents, [0.06]. *)
Lemma propose_contract_fallback_counterexample :
  let P := mkPrincipalAI 0 (1 # 8) 0 (1 # 2) (1 # 2) None None None None in
  let w := snd (propose_contract P 25 0) in
  P_p_high P <= P_p_low P /\ fst w == 6 # 100
  /\ ~ fst w == (1 # 2) * P_res_high P.
Proof.
  vm_compute. repeat split; discriminate.
Qed.




(** Rounding to cents can also turn the tie between the two efforts into a
    strict preference for shirking: here the unrounded wages
    [(6.513..., 4.505...)] differ by exactly [cost gap / probability gap],
    the returned wages [(6.51, 4.51)] by less. *)
Example propose_contract_rounding_shirk :
  let P := mkPrincipalAI (641 # 128) 64 0 (3 # 4) (1 # 4) None None None None in
  let A := agent_for P (257 # 256) 0 in
  let w := snd (propose_contract P (257 # 256) 0) in
  0 <= w_L0 P (257 # 256) 0 /\ w_H0 P (257 # 256) 0 <= P_res_high P
  /\ fst w == 651 # 100 /\ snd w == 451 # 100
  /\ choose_effort A (fst w) (snd w) = Shirk.
Proof. vm_compute. repeat split; discriminate. Qed.

End ContractFacts.

(** ** Lemon market *)

Module LemonFacts.
Import PyNumFacts LemonMarket.
Local Open Scope Q_scope.

(** The exit rule never adds sellers, and never removes more than there
    are. *)
Lemma exit_high_bounds (s : LemonMarketSimulator) (p_t : Q) (h : Z) :
  exit_high s p_t = Some h ->
  (h <= high s)%Z /\ ((0 <= high s)%Z -> (0 <= h)%Z).
Proof.
  unfold exit_high.
  destruct (PyNum.ltb p_t (Vh s) && (0 <? high s)%Z) eqn:C.
  - apply andb_true_iff in C. destruct C as [_ C]. apply Z.ltb_lt in C.
    destruct (PyNum.fdiv p_t (Vh s)); [| discriminate].
    intros [= <-]. lia.
  - intros [= <-]. lia.
Qed.

(** It only raises when [Vh] is zero. *)
Lemma exit_high_total (s : LemonMarketSimulator) (p_t : Q) :
  ~ Vh s == 0 -> exists h, exit_high s p_t = Some h.
Proof.
  intros H. unfold exit_high. rewrite (fdiv_some _ _ H).
  destruct (_ && _); eauto.
Qed.

(** When the price is below [Vh] and a seller is left, at least one exits. *)
Lemma exit_high_strict (s : LemonMarketSimulator) (p_t : Q) :
  ~ Vh s == 0 -> p_t < Vh s -> (0 < high s)%Z ->
  exists h, exit_high s p_t = Some h /\ (0 <= h < high s)%Z.
Proof.
  intros H Hp Hh. unfold exit_high. rewrite (fdiv_some _ _ H).
  apply ltb_true in Hp. rewrite Hp. apply Z.ltb_lt in Hh. rewrite Hh.
  cbn [andb]. apply Z.ltb_lt in Hh. eexists; split; [reflexivity | lia].
Qed.

(** What one completed [_step] changes and what it leaves alone. *)
Lemma step_inv (s s' : LemonMarketSimulator) :
  _step s = Some s' ->
  exists h' q_t p_t,
    exit_high s p_t = Some h' /\
    q_t = inject_Z (high s) / inject_Z (Z.max (high s + low s) 1) /\
    p_t = tau s * Vh s + (1 - tau s) * Vl s /\
    s' = mkSim (total_cars s) h' (low s)
           (PyNum.max 0 (PyNum.min 1 (tau s + beta s * (q_t - tau s))))
           (Vh s) (Vl s) (beta s) (gamma s) (steps s)
           (mkHistory (h_high (history s) ++ [h']) (h_low (history s) ++ [low s])
              (h_q (history s) ++ [q_t])
              (h_tau (history s)
               ++ [PyNum.max 0 (PyNum.min 1 (tau s + beta s * (q_t - tau s)))])
              (h_price (history s) ++ [p_t]) (h_terminal (history s))).
Proof.
  unfold _step.
  destruct (exit_high s _) as [h' |] eqn:E; [| discriminate].
  intros [= <-]. eauto 10.
Qed.

Lemma step_total (s : LemonMarketSimulator) :
  ~ Vh s == 0 -> exists s', _step s = Some s'.
Proof.
  intros H. unfold _step.
  destruct (exit_high_total s (tau s * Vh s + (1 - tau s) * Vl s) H) as [h ->].
  eauto.
Qed.





(** Counts stay non-negative and steps keep succeeding while [Vh] is not
    zero. *)
Lemma step_n_counts (n : nat) (s : LemonMarketSimulator) :
  ~ Vh s == 0 -> (0 <= high s)%Z -> (0 <= low s)%Z ->
  exists s', step_n n s = Some s' /\ ~ Vh s' == 0
             /\ (0 <= high s' <= high s)%Z /\ (0 <= low s')%Z
             /\ (n <> O -> 0 <= tau s' <= 1).
Proof.
  revert s. induction n as [| n IH]; intros s HV Hh Hl; cbn.
  - exists s. repeat split; trivial; try lia.
  - destruct (step_total s HV) as [s1 E1]. rewrite E1.
    destruct (step_inv _ _ E1) as (h' & q & p & Ex & _ & _ & Es1).
    apply exit_high_bounds in Ex. destruct Ex as [Ex1 Ex2].
    assert (T1 : 0 <= tau s1 <= 1) by (rewrite Es1; cbn; apply clamp_unit).
    assert (V1 : ~ Vh s1 == 0) by (rewrite Es1; exact HV).
    assert (H1 : (0 <= high s1 <= high s)%Z) by (rewrite Es1; cbn; lia).
    assert (L1 : (0 <= low s1)%Z) by (rewrite Es1; exact Hl).
    destruct (IH s1 V1 (proj1 H1) L1) as (s' & E' & V' & H' & L' & T').
    exists s'. repeat split; trivial; try lia.
    + destruct n; [| apply T'; discriminate].
      cbn in E'. injection E' as <-. apply T1.
    + destruct n; [| apply T'; discriminate].
      cbn in E'. injection E' as <-. apply T1.
Qed.

Lemma new_counts (total : Z) (q0 V_high V_low b g : Q) (T : Z) :
  (0 <= total)%Z -> 0 <= q0 <= 1 ->
  (0 <= high (new total q0 V_high V_low b g T))%Z
  /\ (0 <= low (new total q0 V_high V_low b g T))%Z.
Proof.
  intros Ht [Hq0 Hq1]. cbn.
  assert (Hq : 0 <= inject_Z total)
    by (change 0 with (inject_Z 0); rewrite <- Zle_Qle; exact Ht).
  assert (H0 : (PyNum.round 0 <= PyNum.round (inject_Z total * q0))%Z)
    by (apply round_mono; nra).
  assert (H1 : (PyNum.round (inject_Z total * q0) <= PyNum.round (inject_Z total))%Z)
    by (apply round_mono; nra).
  rewrite round_Z in H1. change (PyNum.round 0) with 0%Z in H0. lia.
Qed.

(** C4.  For a construction with [total_cars >= 0], [0 <= q0 <= 1] and
    [V_high] not zero, every step succeeds, and after each one the trust
    lies in [[0,1]], both counts are non-negative integers, and the number
    of high-quality sellers is at most what it was the period before. *)
Theorem step_keeps_invariants
    (total : Z) (q0 V_high V_low b g : Q) (T : Z) (n : nat) :
  (0 <= total)%Z -> 0 <= q0 <= 1 -> ~ V_high == 0 ->
  exists s s',
    step_n n (new total q0 V_high V_low b g T) = Some s
    /\ _step s = Some s'
    /\ 0 <= tau s <= 1 /\ (0 <= high s)%Z /\ (0 <= low s)%Z
    /\ 0 <= tau s' <= 1 /\ (0 <= high s')%Z /\ (0 <= low s')%Z
    /\ (high s' <= high s)%Z.
Proof.
  intros Ht Hq HV.
  destruct (new_counts total q0 V_high V_low b g T Ht Hq) as [Hh Hl].
  destruct (step_n_counts n (new total q0 V_high V_low b g T) HV Hh Hl)
    as (s & E & V & H & L & Tn).
  destruct (step_n_counts 1 s V (proj1 H) L) as (s' & E' & _ & H' & L' & T').
  cbn in E'. destruct (_step s) as [s1 |] eqn:E1; [| discriminate].
  injection E' as <-.
  exists s, s1. repeat split; trivial; try lia; try (apply T'; discriminate).
  - destruct n; [| apply Tn; discriminate].
    cbn in E. injection E as <-. apply Hq.
  - destruct n; [| apply Tn; discriminate].
    cbn in E. injection E as <-. apply Hq.
Qed.

Lemma step_keeps_invariants_witness :
  exists s s',
    step_n 3 (new 100 (1 # 2) 2400 1200 (3 # 10) (1 # 5) 30) = Some s
    /\ _step s = Some s'
    /\ 0 <= tau s <= 1 /\ (0 <= high s)%Z /\ (0 <= low s)%Z
    /\ 0 <= tau s' <= 1 /\ (0 <= high s')%Z /\ (0 <= low s')%Z
    /\ (high s' <= high s)%Z.
Proof.
  apply (step_keeps_invariants 100 (1 # 2) 2400 1200 (3 # 10) (1 # 5) 30 3).
  - lia.
  - lra.
  - vm_compute. discriminate.
Defined.

(** While the market is underpriced and a high-quality seller is left, a
    step succeeds, removes at least one of them, and the market stays
    underpriced. *)
Lemma step_underpriced (s : LemonMarketSimulator) :
  underpriced s -> (0 < high s)%Z ->
  exists s', _step s = Some s' /\ underpriced s'
             /\ (high s' < high s)%Z
             /\ h_high (history s') = h_high (history s) ++ [high s'].
Proof.
  intros (Ht & HV & HV0 & [Hb0 Hb1] & Hh & Hl) Hpos.
  assert (Hp : tau s * Vh s + (1 - tau s) * Vl s < Vh s) by nra.
  destruct (exit_high_strict s _ HV0 Hp Hpos) as (h' & Ex & Hh').
  unfold _step. rewrite Ex. eexists. split; [reflexivity |].
  cbn. split; [| split; [lia | reflexivity]].
  unfold underpriced; cbn. repeat split; trivial; try lia.
  set (q := inject_Z (high s) / inject_Z (Z.max (high s + low s) 1)).
  assert (Hq : q <= 1).
  { unfold q. apply Qle_shift_div_r.
    - change 0 with (inject_Z 0). rewrite <- Zlt_Qlt. lia.
    - rewrite Qmult_1_l, <- Zle_Qle. lia. }
  set (t1 := tau s + beta s * (q - tau s)).
  assert (H1 : t1 < 1) by (unfold t1; nra).
  destruct (max_cases 0 (PyNum.min 1 t1)) as [[_ ->] | [_ ->]]; [| lra].
  destruct (min_cases 1 t1) as [[? ->] | [? ->]]; lra.
Qed.

(** In an underpriced market the loop of [run] completes, and the counts it
    records go strictly down, starting below the count it began with. *)
Lemma run_loop_strictly_decreasing (n : nat) (s : LemonMarketSimulator) :
  underpriced s ->
  exists s' l,
    run_loop n s = Some s'
    /\ h_high (history s') = h_high (history s) ++ l
    /\ strictly_decreasing (high s :: l) = true.
Proof.
  revert s. induction n as [| n IH]; intros s U.
  - exists s, []. cbn. rewrite app_nil_r. auto.
  - cbn [run_loop]. destruct (high s =? 0)%Z eqn:E0.
    + eexists. exists []. split; [reflexivity |]. cbn. rewrite app_nil_r. auto.
    + apply Z.eqb_neq in E0.
      assert (Hpos : (0 < high s)%Z)
        by (destruct U as (_ & _ & _ & _ & ? & _); lia).
      destruct (step_underpriced s U Hpos) as (s1 & E1 & U1 & Hlt & Hh).
      rewrite E1. destruct (IH s1 U1) as (s' & l & R & Hl & D).
      exists s', (high s1 :: l). split; [exact R |]. split.
      * rewrite Hl, Hh, <- app_assoc. reflexivity.
      * cbn [strictly_decreasing]. apply andb_true_iff. split; [| exact D].
        apply Z.ltb_lt. exact Hlt.
Qed.

(** C5.  For [total_cars = 100], [q0 = 0.5], values [2400] and [1200],
    [beta = 0.3], [gamma = 0.2] and [30] periods, [run] completes, records
    48 high-quality sellers for period 1 (down from the initial 50), and
    from there on every recorded period has strictly fewer high-quality
    sellers than the one before. *)
Theorem run_scenario_strictly_decreasing :
  exists s l,
    run (new 100 (1 # 2) 2400 1200 (3 # 10) (1 # 5) 30) = Some s
    /\ h_high (history s) = 48%Z :: l
    /\ strictly_decreasing (50%Z :: 48%Z :: l) = true.
Proof.
  set (s0 := new 100 (1 # 2) 2400 1200 (3 # 10) (1 # 5) 30).
  assert (U : underpriced s0).
  { unfold underpriced. cbn. repeat split; try lra; try discriminate. }
  assert (Hpos : (0 < high s0)%Z) by reflexivity.
  destruct (step_underpriced s0 U Hpos) as (s1 & E1 & U1 & _ & H1).
  assert (V1 : high s1 = 48%Z).
  { revert E1. clear. intros E1. vm_compute in E1. injection E1 as <-. reflexivity. }
  destruct (run_loop_strictly_decreasing 29 s1 U1) as (s & l & R & Hl & D).
  exists s, l. split; [| split].
  - unfold run. change (Z.to_nat (steps s0)) with 30%nat.
    cbn [run_loop]. change (high s0 =? 0)%Z with false. cbv iota.
    rewrite E1. exact R.
  - rewrite Hl, H1, V1. reflexivity.
  - rewrite V1 in D. cbn [strictly_decreasing]. rewrite andb_true_iff.
    split; [reflexivity | exact D].
Qed.

End LemonFacts.

(** ** Education signalling *)

Module SignalingFacts.
Import PyNumFacts Signaling.
Local Open Scope Q_scope.

(** C8 (as amended).  For parameters with [wage_high > wage_low],
    [unit_cost_low > unit_cost_high] and both unit costs different from
    zero, [_on_calculate] yields [e_L = (a2 - a1) / c1] and
    [e_H = (a2 - a1) / c2], reports a separating equilibrium exactly when
    [e_L < e_H], then with the midpoint as recommended signal, and with no
    recommended signal otherwise.  For [a1 = 1], [a2 = 2], [c1 = 1.5],
    [c2 = 1] this gives [e_L = 2/3] (0.667 to three decimals), [e_H = 1], a
    separating equilibrium and the signal [5/6] (0.833 to three decimals). *)
Theorem on_calculate_thresholds :
  (forall a1 a2 c1 c2 e_max : Q,
     a1 < a2 -> c2 < c1 -> ~ c1 == 0 -> ~ c2 == 0 ->
     exists t,
       _on_calculate a1 a2 c1 c2 e_max = Thresholds t
       /\ e_L t = (a2 - a1) / c1
       /\ e_H t = (a2 - a1) / c2
       /\ (separating t = true <-> e_L t < e_H t)
       /\ (e_L t < e_H t -> e_star t = Some ((e_L t + e_H t) / 2))
       /\ (~ e_L t < e_H t -> e_star t = None))
  /\ (exists t e,
        _on_calculate 1 2 (3 # 2) 1 3 = Thresholds t
        /\ e_L t == 2 # 3 /\ Qabs (e_L t - (667 # 1000)) <= 1 # 2000
        /\ e_H t == 1
        /\ separating t = true
        /\ e_star t = Some e
        /\ e == 5 # 6 /\ Qabs (e - (833 # 1000)) <= 1 # 2000).
Proof.
  split.
  - intros a1 a2 c1 c2 e_max Ha Hc H1 H2. unfold _on_calculate. cbv zeta.
    rewrite (proj2 (leb_false _ _) Ha), (proj2 (leb_false _ _) Hc).
    rewrite (fdiv_some _ _ H1), (fdiv_some _ _ H2).
    eexists. split; [reflexivity |]. cbn.
    split; [reflexivity |]. split; [reflexivity |].
    destruct (ltb_cases ((a2 - a1) / c1) ((a2 - a1) / c2)) as [[-> H] | [-> H]].
    + repeat split; trivial. intros N. contradiction.
    + repeat split; trivial; try discriminate.
      * intros N. lra.
      * intros N. lra.
  - eexists. eexists. split; [vm_compute; reflexivity |].
    cbn. repeat split; try reflexivity; try discriminate.
Qed.

Lemma on_calculate_thresholds_witness :
  exists t,
    _on_calculate 2 5 4 2 3 = Thresholds t
    /\ e_L t = (5 - 2) / 4
    /\ e_H t = (5 - 2) / 2
    /\ (separating t = true <-> e_L t < e_H t)
    /\ (e_L t < e_H t -> e_star t = Some ((e_L t + e_H t) / 2))
    /\ (~ e_L t < e_H t -> e_star t = None).
Proof.
  apply (proj1 on_calculate_thresholds 2 5 4 2 3).
  - reflexivity.
  - reflexivity.
  - vm_compute. discriminate.
  - vm_compute. discriminate.
Defined.

(** C8 fails as stated: [unit_cost_low = 1 > unit_cost_high = 0] with
    [wage_high = 2 > wage_low = 1] passes both guards, and the division by
    [unit_cost_high] then raises instead of returning thresholds. *)
Lemma on_calculate_thresholds_counterexample :
  1 < 2 /\ 0 < 1
  /\ _on_calculate 1 2 1 0 3 = ZeroDivisionError
  /\ ~ (exists t, _on_calculate 1 2 1 0 3 = Thresholds t).
Proof.
  repeat split. intros [t H]. vm_compute in H. discriminate.
Qed.

(** The guards let through unit costs of opposite signs; then [e_L] is not
    below [e_H] and no signal is recommended. *)
Example on_calculate_no_separation :
  exists t,
    _on_calculate 1 2 1 (-1) 3 = Thresholds t
    /\ separating t = false /\ e_star t = None.
Proof. eexists. split; [vm_compute; reflexivity |]. split; reflexivity. Qed.

(** C9.  When [wage_high <= wage_low] or [unit_cost_low <= unit_cost_high],
    [_on_calculate] stops at the error dialog titled ["参数错误"], whose
    message names the violated condition; no threshold is computed. *)
Theorem on_calculate_precondition_error (a1 a2 c1 c2 e_max : Q) :
  a2 <= a1 \/ c1 <= c2 ->
  (exists msg, _on_calculate a1 a2 c1 c2 e_max = ParameterError "参数错误" msg)
  /\ (a2 <= a1 ->
      _on_calculate a1 a2 c1 c2 e_max
      = ParameterError "参数错误" "必须满足 a2 > a1 (学历溢价)！")
  /\ (a1 < a2 ->
      _on_calculate a1 a2 c1 c2 e_max
      = ParameterError "参数错误" "必须满足 c1 > c2 (单交叉条件)！")
  /\ (forall t, _on_calculate a1 a2 c1 c2 e_max <> Thresholds t)
  /\ _on_calculate a1 a2 c1 c2 e_max <> ZeroDivisionError.
Proof.
  intros H. unfold _on_calculate. cbv zeta.
  destruct (PyNum.leb a2 a1) eqn:Ea.
  - apply leb_true in Ea. repeat split; eauto; try discriminate.
    intros N. lra.
  - apply leb_false in Ea. destruct H as [H | H]; [lra |].
    apply leb_true in H. rewrite H.
    repeat split; eauto; try discriminate. intros N. lra.
Qed.

Lemma on_calculate_precondition_error_witness :
  (exists msg, _on_calculate 2 1 (3 # 2) 1 3 = ParameterError "参数错误" msg)
  /\ _on_calculate 1 2 1 (3 # 2) 3
     = ParameterError "参数错误" "必须满足 c1 > c2 (单交叉条件)！".
Proof.
  split.
  - apply (on_calculate_precondition_error 2 1 (3 # 2) 1 3).
    left. vm_compute. discriminate.
  - apply (on_calculate_precondition_error 1 2 1 (3 # 2) 3).
    + right. vm_compute. discriminate.
    + reflexivity.
Defined.

End SignalingFacts.

(** ** Insurance moral hazard *)

Module MoralHazardFacts.
Import Lra MoralHazard.
Local Open Scope R_scope.

Lemma Rltb_true (x y : R) : Rltb x y = true <-> x < y.
Proof. unfold Rltb. destruct (Rlt_dec x y); split; intros; easy. Qed.

Lemma Rltb_false (x y : R) : Rltb x y = false <-> y <= x.
Proof.
  unfold Rltb. destruct (Rlt_dec x y); split; intros; try easy; lra.
Qed.

Lemma Rleb_true (x y : R) : Rleb x y = true <-> x <= y.
Proof. unfold Rleb. destruct (Rle_dec x y); split; intros; easy. Qed.

Lemma Rleb_false (x y : R) : Rleb x y = false <-> y < x.
Proof.
  unfold Rleb. destruct (Rle_dec x y); split; intros; try easy; lra.
Qed.

Lemma tol_pos : 0 < tol.
Proof. unfold tol. apply Rinv_0_lt_compat. lra. Qed.

(** The three cases of [_utility]. *)
Lemma utility_nonpositive (w gamma : R) : w <= 0 -> _utility w gamma = NInf.
Proof. intros H. unfold _utility. now rewrite (proj2 (Rleb_true _ _) H). Qed.

Lemma utility_log (w gamma : R) :
  0 < w -> Rabs (gamma - 1) < tol -> _utility w gamma = Fin (ln w).
Proof.
  intros Hw Hg. unfold _utility.
  now rewrite (proj2 (Rleb_false _ _) Hw), (proj2 (Rltb_true _ _) Hg).
Qed.

Lemma utility_crra (w gamma : R) :
  0 < w -> tol <= Rabs (gamma - 1) ->
  _utility w gamma = Fin ((Rpower w (1 - gamma) - 1) / (1 - gamma)).
Proof.
  intros Hw Hg. unfold _utility.
  now rewrite (proj2 (Rleb_false _ _) Hw), (proj2 (Rltb_false _ _) Hg).
Qed.

Lemma ln_le_compat (x y : R) : 0 < x -> x <= y -> ln x <= ln y.
Proof.
  intros Hx [H | ->]; [left; now apply ln_increasing | right; reflexivity].
Qed.

Lemma exp_le_compat (x y : R) : x <= y -> exp x <= exp y.
Proof.
  intros [H | ->]; [left; now apply exp_increasing | right; reflexivity].
Qed.

(** The generic CRRA formula is non-decreasing in wealth for every exponent
    other than one. *)
Lemma crra_mono (w1 w2 gamma : R) :
  0 < w1 -> w1 <= w2 -> gamma <> 1 -> crra w1 gamma <= crra w2 gamma.
Proof.
  intros H1 H12 Hg. unfold crra, Rpower.
  pose proof (ln_le_compat _ _ H1 H12) as HL.
  set (t := 1 - gamma). assert (Ht : t <> 0) by (unfold t; lra).
  destruct (Rtotal_order t 0) as [Hneg | [H0 | Hpos]]; [| contradiction |].
  - assert (HE : exp (t * ln w2) <= exp (t * ln w1)) by (apply exp_le_compat; nra).
    assert (Hi : / t < 0) by now apply Rinv_lt_0_compat.
    unfold Rdiv. nra.
  - assert (HE : exp (t * ln w1) <= exp (t * ln w2)) by (apply exp_le_compat; nra).
    assert (Hi : 0 < / t) by now apply Rinv_0_lt_compat.
    unfold Rdiv. nra.
Qed.

(** As the exponent tends to one the generic formula tends to the
    logarithm. *)
Lemma crra_limit (w : R) :
  0 < w ->
  forall eps : R, 0 < eps ->
    exists delta : R, 0 < delta /\
      forall gamma : R, gamma <> 1 -> Rabs (gamma - 1) < delta ->
        Rabs (crra w gamma - ln w) < eps.
Proof.
  intros Hw eps Heps.
  destruct (Req_dec (ln w) 0) as [L0 | L0].
  - exists 1. split; [lra |]. intros gamma Hg _.
    unfold crra, Rpower. rewrite L0, Rmult_0_r, exp_0.
    replace ((1 - 1) / (1 - gamma) - 0) with 0 by (field; lra).
    rewrite Rabs_R0. exact Heps.
  - assert (HL : 0 < Rabs (ln w)) by now apply Rabs_pos_lt.
    assert (He : 0 < eps / Rabs (ln w)) by now apply Rdiv_lt_0_compat.
    destruct (derivable_pt_lim_exp_0 _ He) as [d Hd].
    exists (d / Rabs (ln w)). split.
    + apply Rdiv_lt_0_compat; [apply cond_pos | exact HL].
    + intros gamma Hg Hclose.
      set (t := 1 - gamma). assert (Ht : t <> 0) by (unfold t; lra).
      assert (Hh : t * ln w <> 0) by now apply Rmult_integral_contrapositive.
      assert (Hsmall : Rabs (t * ln w) < d).
      { rewrite Rabs_mult.
        replace (Rabs t) with (Rabs (gamma - 1))
          by (unfold t; rewrite <- Rabs_Ropp; f_equal; lra).
        apply (Rmult_lt_compat_r _ _ _ HL) in Hclose.
        replace (d / Rabs (ln w) * Rabs (ln w)) with (pos d) in Hclose
          by (field; lra).
        exact Hclose. }
      specialize (Hd (t * ln w) Hh Hsmall).
      rewrite Rplus_0_l, exp_0 in Hd.
      unfold crra, Rpower. fold t.
      replace ((exp (t * ln w) - 1) / t - ln w)
        with (ln w * ((exp (t * ln w) - 1) / (t * ln w) - 1)) by (field; lra).
      rewrite Rabs_mult.
      apply (Rmult_lt_compat_l _ _ _ HL) in Hd.
      replace (Rabs (ln w) * (eps / Rabs (ln w))) with eps in Hd by (field; lra).
      exact Hd.
Qed.

(** C6.  [_utility] is [-inf] for wealth [<= 0], [ln wealth] when
    [|gamma - 1| < 1e-8], and [(wealth ** (1 - gamma) - 1) / (1 - gamma)]
    otherwise; for every fixed [gamma] it is non-decreasing in wealth; and
    at [gamma = 1] it is the logarithm, which is the limit of the generic
    CRRA formula as [gamma] tends to one. *)
Theorem utility_monotone_continuous :
  (forall w gamma : R, w <= 0 -> _utility w gamma = NInf)
  /\ (forall w gamma : R,
        0 < w -> Rabs (gamma - 1) < tol -> _utility w gamma = Fin (ln w))
  /\ (forall w gamma : R,
        0 < w -> tol <= Rabs (gamma - 1) ->
        _utility w gamma = Fin ((Rpower w (1 - gamma) - 1) / (1 - gamma)))
  /\ (forall w1 w2 gamma : R,
        w1 <= w2 -> xle (_utility w1 gamma) (_utility w2 gamma))
  /\ (forall w : R,
        0 < w ->
        _utility w 1 = Fin (ln w)
        /\ forall eps : R, 0 < eps ->
             exists delta : R, 0 < delta /\
               forall gamma : R, gamma <> 1 -> Rabs (gamma - 1) < delta ->
                 Rabs ((Rpower w (1 - gamma) - 1) / (1 - gamma) - ln w) < eps).
Proof.
  split; [exact utility_nonpositive |].
  split; [exact utility_log |].
  split; [exact utility_crra |].
  split.
  - intros w1 w2 gamma H12.
    destruct (Rle_dec w1 0) as [H1 | H1].
    + rewrite (utility_nonpositive w1 gamma H1).
      unfold _utility. destruct (Rleb w2 0); [exact I |].
      destruct (Rltb _ tol); exact I.
    + assert (P1 : 0 < w1) by lra. assert (P2 : 0 < w2) by lra.
      destruct (Rlt_dec (Rabs (gamma - 1)) tol) as [Hg | Hg].
      * rewrite !utility_log by assumption. cbn. now apply ln_le_compat.
      * assert (Hg' : tol <= Rabs (gamma - 1)) by lra.
        rewrite !utility_crra by assumption. cbn.
        apply crra_mono; trivial.
        intros ->. pose proof tol_pos.
        replace (1 - 1) with 0 in Hg' by lra. rewrite Rabs_R0 in Hg'. lra.
  - intros w Hw. split.
    + apply utility_log; [exact Hw |].
      replace (1 - 1) with 0 by lra. rewrite Rabs_R0. apply tol_pos.
    + apply crra_limit. exact Hw.
Qed.

Lemma utility_monotone_continuous_witness :
  _utility (-1) 2 = NInf
  /\ _utility 3 1 = Fin (ln 3)
  /\ _utility 3 2 = Fin ((Rpower 3 (1 - 2) - 1) / (1 - 2))
  /\ xle (_utility 2 2) (_utility 3 2).
Proof.
  destruct utility_monotone_continuous as (U0 & U1 & U2 & M & C).
  split; [apply U0; lra |].
  split; [apply (C 3); lra |].
  split; [apply U2; [lra |] | apply M; lra].
  replace (2 - 1) with 1 by lra. rewrite Rabs_R1.
  unfold tol. lra.
Defined.

(** C7.  With [base_theft_prob = 0.25], [device_theft_prob = 0.15] and no
    moral-hazard increment, whatever the wealth, loss, device cost and risk
    aversion, hence whichever strategy [_simulate] selects, the actual theft
    probability does not exceed the base probability and the extra expected
    payout is zero. *)
Theorem simulate_no_moral_hazard (w d c_d gamma : R) :
  prob_actual (_simulate w d (25 / 100) (15 / 100) c_d 0 gamma) <= 25 / 100
  /\ extra_loss (_simulate w d (25 / 100) (15 / 100) c_d 0 gamma) = 0.
Proof.
  unfold _simulate. cbv zeta. cbn [prob_actual extra_loss].
  match goal with
  | |- context [if ?b then 15 / 100 else 25 / 100] => destruct b
  end.
  - assert (E : Rmin_py (Rmax_py (15 / 100 + 0) 0) 1 = 15 / 100).
    { unfold Rmax_py. rewrite (proj2 (Rltb_false _ _)) by lra.
      unfold Rmin_py. rewrite (proj2 (Rltb_false _ _)) by lra. lra. }
    rewrite E. split; [lra |]. now rewrite (proj2 (Rltb_false _ _)) by lra.
  - assert (E : Rmin_py (Rmax_py (25 / 100 + 0) 0) 1 = 25 / 100).
    { unfold Rmax_py. rewrite (proj2 (Rltb_false _ _)) by lra.
      unfold Rmin_py. rewrite (proj2 (Rltb_false _ _)) by lra. lra. }
    rewrite E. split; [lra |]. now rewrite (proj2 (Rltb_false _ _)) by lra.
Qed.

(** The zero payout is a statement about the insured strategies too: both
    values of [install_ins] occur. *)
Example simulate_install_flags :
  install_ins (_simulate 100 20 (25 / 100) (15 / 100) 0 0 1) = false
  /\ install_ins (_simulate 100 20 (25 / 100) (15 / 100) (-1) 0 1) = true.
Proof.
  unfold _simulate. cbv zeta. cbn [install_ins]. unfold xgtb. split.
  - rewrite !utility_log; try lra;
      try (replace (1 - 1) with 0 by lra; rewrite Rabs_R0; apply tol_pos).
    cbn. apply Rltb_false. right. f_equal. lra.
  - rewrite !utility_log; try lra;
      try (replace (1 - 1) with 0 by lra; rewrite Rabs_R0; apply tol_pos).
    cbn. apply Rltb_true. apply ln_increasing; lra.
Qed.

End MoralHazardFacts.

(** ** Principal-agent: incomes, counter-offer and demonstration costs *)

Module ContractMoreFacts.
Import PyNum PyNumFacts PyExc PrincipalAgent PrincipalAgentMore.
Local Open Scope Q_scope.

(** When the gap and the surplus are positive and the target low wage is
    not negative, [counter_offer] proposes the target wages. *)
Lemma counter_offer_proposes (A : AgentAI) (R_H R_L w_high w_low pi_min : Q) :
  A_res A = Some (R_H, R_L) ->
  0 < A_p_high A - A_p_low A -> 0 < co_TS A R_H R_L pi_min ->
  0 <= co_w_L_new A R_H R_L pi_min ->
  counter_offer A w_high w_low pi_min
  = Ok (Some (round2 (co_w_L_new A R_H R_L pi_min + co_s A),
              round2 (co_w_L_new A R_H R_L pi_min))).
Proof.
  intros HR H1 H2 H3. unfold counter_offer. rewrite HR. cbv zeta.
  unfold co_w_L_new, co_TS, co_s in *.
  rewrite (proj2 (leb_false _ _) H1), (proj2 (leb_false _ _) H2).
  now rewrite (proj2 (ltb_false _ _) H3).
Qed.

(** X1.  [counter_offer] answers [None] exactly when the probability gap is
    not positive, the surplus is not positive, or the low wage it aims at
    is negative; in every other case it returns that low wage and the low
    wage plus the gap [s], both rounded to cents.  The "minimal IR+IC"
    contract of its inner branch is never returned. *)
Theorem counter_offer_cases (A : AgentAI) (R_H R_L w_high w_low pi_min : Q) :
  A_res A = Some (R_H, R_L) ->
  (counter_offer A w_high w_low pi_min = Ok None
   <-> A_p_high A - A_p_low A <= 0 \/ co_TS A R_H R_L pi_min <= 0
       \/ co_w_L_new A R_H R_L pi_min < 0)
  /\ (0 < A_p_high A - A_p_low A -> 0 < co_TS A R_H R_L pi_min ->
      0 <= co_w_L_new A R_H R_L pi_min ->
      counter_offer A w_high w_low pi_min
      = Ok (Some (round2 (co_w_L_new A R_H R_L pi_min + co_s A),
                  round2 (co_w_L_new A R_H R_L pi_min)))).
Proof.
  intros HR. unfold counter_offer. rewrite HR. cbv zeta.
  unfold co_w_L_new, co_TS, co_s.
  set (dp := A_p_high A - A_p_low A).
  set (TS := A_p_high A * R_H + (1 - A_p_high A) * R_L - A_cost_high_var A
             - pi_min - A_U_res A).
  set (s := (A_cost_high_var A - A_cost_low_var A) / dp).
  destruct (leb dp 0) eqn:E1;
    [apply leb_true in E1 | apply leb_false in E1].
  { split; [split; auto | intros; lra]. }
  destruct (leb TS 0) eqn:E2;
    [apply leb_true in E2 | apply leb_false in E2].
  { split; [split; auto | intros; lra]. }
  destruct (ltb (A_cost_high_var A + A_U_res A + TS / 2 - A_p_high A * s) 0) eqn:E3;
    [apply ltb_true in E3 | apply ltb_false in E3].
  - assert (Halt : A_cost_high_var A + A_U_res A - A_p_high A * s < 0).
    { assert (0 < TS / 2) by (apply Qlt_shift_div_l; lra). lra. }
    apply ltb_true in Halt. rewrite Halt.
    split; [split; auto | intros; lra].
  - split; [| reflexivity].
    split; [discriminate | intros [H | [H | H]]; lra].
Qed.

Lemma counter_offer_cases_witness :
  let A := mkAgentAI 10 5 0 (4 # 5) (2 # 5) (Some (100, 20)) None in
  counter_offer A 30 10 0
  = Ok (Some (round2 (co_w_L_new A 100 20 0 + co_s A),
              round2 (co_w_L_new A 100 20 0))).
Proof.
  intros A.
  apply (proj2 (counter_offer_cases A 100 20 30 10 0 eq_refl));
    vm_compute; reflexivity || discriminate.
Defined.

(** X2.  When [counter_offer] proposes a contract (positive probability gap
    and surplus, non-negative target low wage, [p_high] in [[0,1]]), the
    agent's expected utility under effort is the reservation utility plus
    half the surplus and the principal's expected profit is the required
    minimum plus the other half, each up to the half cent of rounding; at
    the unrounded wages the agent is indifferent between the efforts. *)
Theorem counter_offer_splits_surplus
    (A : AgentAI) (R_H R_L w_high w_low pi_min : Q) :
  A_res A = Some (R_H, R_L) ->
  0 <= A_p_high A <= 1 ->
  0 < A_p_high A - A_p_low A -> 0 < co_TS A R_H R_L pi_min ->
  0 <= co_w_L_new A R_H R_L pi_min ->
  exists wH wL profit,
    counter_offer A w_high w_low pi_min = Ok (Some (wH, wL))
    /\ principal_income A Effort wH wL = Ok profit
    /\ Qabs (_expected_utility A wH wL Effort
             - (A_U_res A + co_TS A R_H R_L pi_min / 2)) <= 1 # 200
    /\ Qabs (profit - (pi_min + co_TS A R_H R_L pi_min / 2)) <= 1 # 200
    /\ _expected_utility A (co_w_L_new A R_H R_L pi_min + co_s A)
         (co_w_L_new A R_H R_L pi_min) Effort
       == _expected_utility A (co_w_L_new A R_H R_L pi_min + co_s A)
            (co_w_L_new A R_H R_L pi_min) Shirk.
Proof.
  intros HR Hp Hdp HTS HwL.
  pose proof (counter_offer_proposes A R_H R_L w_high w_low pi_min HR
                Hdp HTS HwL) as HC.
  eexists. eexists. eexists. split; [exact HC |].
  unfold principal_income. rewrite HR. split; [reflexivity |].
  set (wL := co_w_L_new A R_H R_L pi_min) in *.
  set (s := co_s A) in *.
  pose proof (round2_near (wL + s)) as NH. pose proof (round2_near wL) as NL.
  assert (Es : s * (A_p_high A - A_p_low A)
               == A_cost_high_var A - A_cost_low_var A).
  { unfold s, co_s. rewrite Qmult_comm. apply Qmult_div_r. lra. }
  assert (EwL : wL == A_cost_high_var A + A_U_res A
                      + co_TS A R_H R_L pi_min / 2 - A_p_high A * s)
    by reflexivity.
  assert (ETS : co_TS A R_H R_L pi_min
                == A_p_high A * R_H + (1 - A_p_high A) * R_L
                   - A_cost_high_var A - pi_min - A_U_res A) by reflexivity.
  set (TS := co_TS A R_H R_L pi_min) in *.
  set (half := TS / 2) in *.
  assert (Eh : half * 2 == TS) by (unfold half; field).
  unfold _expected_utility.
  set (p := A_p_high A) in *. set (rH := round2 (wL + s)) in *.
  set (rL := round2 wL) in *.
  split; [| split].
  - apply Qabs_Qle_condition. split; nra.
  - apply Qabs_Qle_condition. split; nra.
  - nra.
Qed.

Lemma counter_offer_splits_surplus_witness :
  let A := mkAgentAI 10 5 0 (4 # 5) (2 # 5) (Some (100, 20)) None in
  exists wH wL profit,
    counter_offer A 30 10 0 = Ok (Some (wH, wL))
    /\ principal_income A Effort wH wL = Ok profit
    /\ Qabs (_expected_utility A wH wL Effort
             - (A_U_res A + co_TS A 100 20 0 / 2)) <= 1 # 200
    /\ Qabs (profit - (0 + co_TS A 100 20 0 / 2)) <= 1 # 200
    /\ _expected_utility A (co_w_L_new A 100 20 0 + co_s A)
         (co_w_L_new A 100 20 0) Effort
       == _expected_utility A (co_w_L_new A 100 20 0 + co_s A)
            (co_w_L_new A 100 20 0) Shirk.
Proof.
  intros A.
  apply (counter_offer_splits_surplus A 100 20 30 10 0 eq_refl);
    vm_compute; try split; reflexivity || discriminate.
Defined.

(** X3.  [evaluate_contract] accepts exactly when effort gives the agent
    at least the reservation utility and at least what shirking gives; it
    caches the two utilities, and from then on [choose_effort] answers for
    the evaluated contract whatever wages it is called with.  After an
    acceptance that answer is effort. *)
Theorem evaluate_then_choose (A : AgentAI) (w1 w2 w1' w2' : Q) :
  let A' := fst (evaluate_contract A w1 w2) in
  let UE := _expected_utility A w1 w2 Effort in
  let UL := _expected_utility A w1 w2 Shirk in
  (snd (evaluate_contract A w1 w2) = true <-> A_U_res A <= UE /\ UL <= UE)
  /\ choose_effort A' w1' w2' = (if geb UE UL then Effort else Shirk)
  /\ (snd (evaluate_contract A w1 w2) = true ->
      choose_effort A' w1' w2' = Effort).
Proof.
  cbv zeta. unfold evaluate_contract, choose_effort. cbn [fst snd A_cache].
  rewrite andb_true_iff, !geb_true.
  split; [tauto |]. split; [reflexivity |].
  intros [_ H]. apply geb_true in H. now rewrite H.
Qed.

(** A stale cache at work: the agent accepts [(100, 0)], and then still
    answers "effort" for the flat contract [(0, 0)], for which a fresh agent
    shirks. *)
Lemma evaluate_then_choose_witness :
  let A := mkAgentAI 10 5 0 (4 # 5) (2 # 5) (Some (100, 20)) None in
  snd (evaluate_contract A 100 0) = true
  /\ choose_effort (fst (evaluate_contract A 100 0)) 0 0 = Effort
  /\ choose_effort A 0 0 = Shirk.
Proof.
  intros A.
  assert (H : snd (evaluate_contract A 100 0) = true) by (vm_compute; reflexivity).
  split; [exact H |]. split; [| vm_compute; reflexivity].
  apply (proj2 (proj2 (evaluate_then_choose A 100 0 0 0))). exact H.
Defined.

(** X4.  Whatever the wages, the principal's expected profit and the
    agent's expected utility add up to the expected revenue under the
    chosen effort less the cost of that effort; before [set] has stored the
    revenues, [principal_income] raises [AttributeError]. *)
Theorem profit_plus_utility (A : AgentAI) (e : EffortChoice) (wH wL : Q) :
  (A_res A = None -> principal_income A e wH wL = Raise AttributeError)
  /\ (forall R_H R_L, A_res A = Some (R_H, R_L) ->
      exists profit,
        principal_income A e wH wL = Ok profit
        /\ profit + _expected_utility A wH wL e
           == match e with
              | Effort => A_p_high A * R_H + (1 - A_p_high A) * R_L
                          - A_cost_high_var A
              | Shirk => A_p_low A * R_H + (1 - A_p_low A) * R_L
                         - A_cost_low_var A
              end).
Proof.
  unfold principal_income. split.
  - now intros ->.
  - intros R_H R_L ->. destruct e; eexists; (split; [reflexivity |]);
      unfold _expected_utility; ring.
Qed.

Lemma profit_plus_utility_witness :
  let A := mkAgentAI 10 5 0 (4 # 5) (2 # 5) (Some (100, 20)) None in
  exists profit,
    principal_income A Effort 40 15 = Ok profit
    /\ profit + _expected_utility A 40 15 Effort == 74.
Proof.
  intros A.
  destruct (proj2 (profit_plus_utility A Effort 40 15) 100 20 eq_refl)
    as (profit & H1 & H2).
  exists profit. split; [exact H1 |]. rewrite H2. vm_compute. reflexivity.
Defined.

(** Split on the comparisons of a branch, keeping what each decides. *)
Ltac split_cmp :=
  let E := fresh "E" in
  match goal with
  | |- context [gtb ?x ?y] =>
      destruct (gtb x y) eqn:E; [apply gtb_true in E | apply gtb_false in E]
  | |- context [leb ?x ?y] =>
      destruct (leb x y) eqn:E; [apply leb_true in E | apply leb_false in E]
  | |- context [ltb ?x ?y] =>
      destruct (ltb x y) eqn:E; [apply ltb_true in E | apply ltb_false in E]
  end;
  cbv beta iota; cbn [orb andb fst snd].

(** X5.  On a principal that has not yet stored a contract,
    [propose_contract] followed by [agent_income] raises [AttributeError]
    exactly when [propose_contract] left through one of its two early
    fallbacks (probability gap at most [1e-8], revenues not increasing, or
    [b_star > 1]), which return without storing the wages.  Otherwise the
    wages stored are the wages returned, and [agent_income] is the agent's
    expected utility at them, rounded to cents. *)
Theorem agent_income_after_propose
    (P : PrincipalAI) (c_high c_low : Q) (e : EffortChoice) :
  P_w_high P = None -> P_w_low P = None ->
  let r := propose_contract P c_high c_low in
  let early := P_p_high P - P_p_low P <= eps \/ P_res_high P <= P_res_low P
               \/ 1 < b_star P c_high c_low in
  (agent_income (fst r) e = Raise AttributeError <-> early)
  /\ (~ early ->
      P_w_high (fst r) = Some (fst (snd r))
      /\ P_w_low (fst r) = Some (snd (snd r))
      /\ agent_income (fst r) e
         = Ok (round2 (_expected_utility (agent_for P c_high c_low)
                         (fst (snd r)) (snd (snd r)) e))).
Proof.
  intros HH HL r early. subst r early. unfold b_star.
  unfold propose_contract. cbv zeta.
  destruct (leb (P_p_high P - P_p_low P) eps) eqn:E1;
    [apply leb_true in E1 | apply leb_false in E1]; cbn [orb].
  { unfold agent_income; cbn. rewrite HH. split; [tauto | intros N; tauto]. }
  destruct (leb (P_res_high P) (P_res_low P)) eqn:E2;
    [apply leb_true in E2 | apply leb_false in E2].
  { unfold agent_income; cbn. rewrite HH. split; [tauto | intros N; tauto]. }
  set (b := (c_high - c_low) / _).
  set (a := P_U_res P + c_high - _).
  destruct (gtb b 1) eqn:E3; [apply gtb_true in E3 | apply gtb_false in E3].
  { unfold agent_income; cbn. rewrite HH. split; [tauto | intros N; tauto]. }
  assert (NE : ~ (P_p_high P - P_p_low P <= eps \/ P_res_high P <= P_res_low P
                  \/ 1 < b)) by (intros [H | [H | H]]; lra).
  repeat split_cmp;
    (split; [split; [unfold agent_income; cbn; destruct e; discriminate
                    | intros N; contradiction]
            | intros _; unfold agent_income, _expected_utility, agent_for; cbn;
              destruct e; auto]).
Qed.

Lemma agent_income_after_propose_witness :
  let P := mkPrincipalAI 20 100 0 (3 # 4) (1 # 4) None None None None in
  let r := propose_contract P 25 0 in
  P_w_high (fst r) = Some (fst (snd r))
  /\ P_w_low (fst r) = Some (snd (snd r))
  /\ agent_income (fst r) Effort
     = Ok (round2 (_expected_utility (agent_for P 25 0)
                     (fst (snd r)) (snd (snd r)) Effort)).
Proof.
  intros P.
  apply (proj2 (agent_income_after_propose P 25 0 Effort eq_refl eq_refl)).
  vm_compute. intros [H | [H | H]]; first [discriminate | apply H; reflexivity].
Defined.

Lemma trunc_nonneg (x : Q) : 0 <= x -> trunc x = Qfloor x /\ (0 <= trunc x)%Z.
Proof.
  intros H. unfold trunc. rewrite (proj2 (ltb_false _ _) H).
  split; [reflexivity |].
  change 0%Z with (Qfloor 0). now apply Qfloor_resp_le.
Qed.

(** The loop of [cost_set] stops between [hi_min] and where it started,
    with the gap closed or [hi_min] reached. *)
Lemma lower_cost_spec (fuel : nat) (c_H c_L hi_min : Z) (max_gap : Q) :
  (hi_min <= c_H)%Z -> (c_H - hi_min <= Z.of_nat fuel)%Z ->
  (hi_min <= lower_cost fuel c_H c_L hi_min max_gap <= c_H)%Z
  /\ (inject_Z (lower_cost fuel c_H c_L hi_min max_gap - c_L) <= max_gap
      \/ lower_cost fuel c_H c_L hi_min max_gap = hi_min).
Proof.
  revert c_H. induction fuel as [| k IH]; intros c_H Hlo Hfuel.
  - cbn. split; [lia |]. right. lia.
  - cbn [lower_cost].
    destruct (gtb (inject_Z (c_H - c_L)) max_gap) eqn:G;
      [apply gtb_true in G | apply gtb_false in G]; cbn [andb].
    + destruct (hi_min <? c_H)%Z eqn:L;
        [apply Z.ltb_lt in L | apply Z.ltb_ge in L].
      * destruct (IH (c_H - 1)%Z) as [B D]; [lia | lia |].
        split; [lia | exact D].
      * split; [lia |]. right. lia.
    + split; [lia |]. left. exact G.
Qed.

(** X6.  For a non-negative high revenue and draws inside the ranges
    [cost_set] asks [randint] for, [cost_set] stores costs with
    [hi_min <= cost_high <= the drawn value] and [0 <= cost_low <=
    cost_high]; the cost of effort is strictly the larger one as soon as
    [res_high >= 20]; and the loop has either brought the gap to the drawn
    shirking cost down to [(res_high - res_low) / 4] or lowered [cost_high]
    all the way to [hi_min].  For [res_high <= -10] the first range is
    empty and [cost_set] raises [ValueError]. *)
Theorem cost_set_costs (res_high res_low : Q) (draw_H draw_L : Z) :
  (0 <= res_high -> draws_in_range res_high draw_H draw_L ->
   exists c_H c_L,
     cost_set res_high res_low draw_H draw_L = Ok (c_H, c_L)
     /\ (trunc ((5 # 100) * res_high) <= c_H <= draw_H)%Z
     /\ (0 <= c_L <= c_H)%Z
     /\ (20 <= res_high -> (c_L < c_H)%Z)
     /\ (inject_Z (c_H - draw_L) <= (res_high - res_low) / 4
         \/ c_H = trunc ((5 # 100) * res_high)))
  /\ (res_high <= -10 ->
      cost_set res_high res_low draw_H draw_L = Raise ValueError).
Proof.
  split.
  - intros Hr [[HH1 HH2] [HL1 HL2]].
    destruct (trunc_nonneg ((5 # 100) * res_high)) as [Emin Hmin]; [lra |].
    destruct (trunc_nonneg ((15 # 100) * res_high)) as [Emax Hmax]; [lra |].
    unfold cost_set. cbv zeta.
    set (hi_min := trunc ((5 # 100) * res_high)) in *.
    set (hi_max := trunc ((15 # 100) * res_high)) in *.
    assert (Hmm : (hi_min <= hi_max)%Z) by lia.
    apply Z.ltb_ge in Hmm. rewrite Hmm.
    set (max_gap := (res_high - res_low) / 4).
    destruct (lower_cost_spec (Z.to_nat (draw_H - hi_min)) draw_H draw_L
                hi_min max_gap) as [[B1 B2] D]; [lia | lia |].
    set (c := lower_cost _ draw_H draw_L hi_min max_gap) in *.
    eexists. eexists. split; [reflexivity |].
    split; [lia |].
    assert (H20 : 20 <= res_high -> (1 <= hi_min)%Z).
    { intros H. rewrite Emin. change 1%Z with (Qfloor 1).
      apply Qfloor_resp_le. lra. }
    destruct (c <=? draw_L)%Z eqn:C;
      [apply Z.leb_le in C | apply Z.leb_gt in C].
    + split; [lia |]. split; [intros H; specialize (H20 H); lia | exact D].
    + split; [lia |]. split; [intros _; lia | exact D].
  - intros Hr. unfold cost_set. cbv zeta.
    assert (Hlt : (trunc ((15 # 100) * res_high) < trunc ((5 # 100) * res_high))%Z).
    { unfold trunc.
      rewrite (proj2 (ltb_true ((15 # 100) * res_high) 0)) by lra.
      rewrite (proj2 (ltb_true ((5 # 100) * res_high) 0)) by lra.
      pose proof (Qlt_floor (- ((15 # 100) * res_high))) as F.
      pose proof (Qle_ceiling ((5 # 100) * res_high)) as C.
      unfold Qceiling at 1.
      rewrite Zlt_Qlt. rewrite inject_Z_opp.
      rewrite inject_Z_plus in F. change (inject_Z 1) with 1 in F.
      pose proof (Qfloor_le (- ((15 # 100) * res_high))) as F'.
      assert (K : inject_Z (Qfloor (- ((15 # 100) * res_high)))
                  > - ((15 # 100) * res_high) - 1) by lra.
      lra. }
    apply Z.ltb_lt in Hlt. now rewrite Hlt.
Qed.

Lemma cost_set_costs_witness :
  exists c_H c_L,
    cost_set 100 20 15 0 = Ok (c_H, c_L)
    /\ (5 <= c_H <= 15)%Z /\ (0 <= c_L <= c_H)%Z /\ (c_L < c_H)%Z.
Proof.
  destruct (proj1 (cost_set_costs 100 20 15 0)) as (c_H & c_L & E & B & L & S & _).
  - vm_compute. discriminate.
  - vm_compute. repeat split; discriminate.
  - exists c_H, c_L. split; [exact E |]. split; [exact B |].
    split; [exact L |]. apply S. vm_compute. discriminate.
Defined.

End ContractMoreFacts.

(** ** Lemon market: the controller's loop and the CSV export *)

Module LemonMoreFacts.
Import PyNumFacts PyExc LemonMarket LemonMarketMore LemonFacts.
Local Open Scope Q_scope.

Lemma new_aligned (total : Z) (q0 V_high V_low b g : Q) (T : Z) :
  aligned (history (new total q0 V_high V_low b g T)) 0.
Proof. unfold aligned. cbn. tauto. Qed.

Lemma step_aligned (s s' : LemonMarketSimulator) (n : nat) :
  aligned (history s) n -> _step s = Some s' -> aligned (history s') (S n).
Proof.
  intros (A1 & A2 & A3 & A4 & A5) H.
  destruct (step_inv _ _ H) as (h' & q & p & _ & _ & _ & ->).
  unfold aligned. cbn. rewrite !length_app. cbn. lia.
Qed.

Lemma step_n_aligned (n : nat) (s s' : LemonMarketSimulator) (m : nat) :
  aligned (history s) m -> step_n n s = Some s' ->
  aligned (history s') (n + m).
Proof.
  revert s m. induction n as [| n IH]; intros s m A; cbn.
  - now intros [= <-].
  - destruct (_step s) as [s1 |] eqn:E; [| discriminate].
    intros H. replace (S (n + m)) with (n + S m)%nat by lia.
    apply (IH s1); [eapply step_aligned; eassumption | exact H].
Qed.

(** Reading a list back entry by entry gives the list. *)
Lemma map_nth_seq {A : Type} (l : list A) (d : A) :
  map (fun i => nth i l d) (seq 0 (List.length l)) = l.
Proof.
  apply (nth_ext _ _ d d).
  - now rewrite length_map, length_seq.
  - intros n Hn. rewrite length_map, length_seq in Hn.
    rewrite (nth_indep _ d (nth 0 l d)) by now rewrite length_map, length_seq.
    rewrite (map_nth (fun i => nth i l d) (seq 0 (List.length l)) 0%nat n).
    now rewrite seq_nth.
Qed.

Lemma item_nth {A : Type} (l : list A) (i : nat) (d : A) :
  (i < List.length l)%nat -> item l i = Ok (nth i l d).
Proof.
  intros H. unfold item. now rewrite (nth_error_nth' l d H).
Qed.

Lemma export_from_columns (h : History) (n : nat) (idx : list nat) :
  aligned h n -> Forall (fun i => (i < n)%nat) idx ->
  exists rows,
    export_from h idx = Ok rows
    /\ map row_t rows = map (fun i => (Z.of_nat i + 1)%Z) idx
    /\ map row_high rows = map (fun i => nth i (h_high h) 0%Z) idx
    /\ map row_low rows = map (fun i => nth i (h_low h) 0%Z) idx
    /\ map row_q rows = map (fun i => nth i (h_q h) 0) idx
    /\ map row_tau rows = map (fun i => nth i (h_tau h) 0) idx
    /\ map row_price rows = map (fun i => nth i (h_price h) 0) idx.
Proof.
  intros (A1 & A2 & A3 & A4 & A5) F.
  induction F as [| i idx Hi F IH].
  - exists []. cbn. tauto.
  - destruct IH as (rows & E & C).
    cbn [export_from]. unfold export_row.
    rewrite (item_nth (h_high h) i 0%Z), (item_nth (h_low h) i 0%Z),
      (item_nth (h_q h) i 0), (item_nth (h_tau h) i 0),
      (item_nth (h_price h) i 0) by lia.
    rewrite E. eexists. split; [reflexivity |].
    destruct C as (C1 & C2 & C3 & C4 & C5 & C6).
    cbn. rewrite C1, C2, C3, C4, C5, C6. tauto.
Qed.

(** X7.  After any number of completed steps from construction the five
    history lists have one entry per period, and the CSV export succeeds:
    it writes one row per period, numbered from 1, whose columns are
    exactly the five history lists. *)
Theorem export_rows_columns
    (total : Z) (q0 V_high V_low b g : Q) (T : Z) (n : nat)
    (s : LemonMarketSimulator) :
  step_n n (new total q0 V_high V_low b g T) = Some s ->
  aligned (history s) n
  /\ exists rows,
       export_rows (history s) = Ok rows
       /\ List.length rows = n
       /\ map row_t rows = map (fun i => (Z.of_nat i + 1)%Z) (seq 0 n)
       /\ map row_high rows = h_high (history s)
       /\ map row_low rows = h_low (history s)
       /\ map row_q rows = h_q (history s)
       /\ map row_tau rows = h_tau (history s)
       /\ map row_price rows = h_price (history s).
Proof.
  intros H.
  pose proof (step_n_aligned n _ s 0%nat (new_aligned _ _ _ _ _ _ _) H) as A.
  rewrite Nat.add_0_r in A. split; [exact A |].
  destruct A as (A1 & A2 & A3 & A4 & A5).
  destruct (export_from_columns (history s) n (seq 0 n)) as (rows & E & C).
  - unfold aligned. tauto.
  - apply Forall_forall. intros i Hi. apply in_seq in Hi. lia.
  - exists rows. unfold export_rows. rewrite A3. split; [exact E |].
    destruct C as (C1 & C2 & C3 & C4 & C5 & C6).
    split; [| split; [exact C1 |]].
    + rewrite <- (length_map row_t), C1, length_map, length_seq. reflexivity.
    + rewrite C2, C3, C4, C5, C6.
      rewrite <- A1 at 1. rewrite <- A2 at 1. rewrite <- A3 at 1.
      rewrite <- A4 at 1. rewrite <- A5 at 1.
      rewrite !map_nth_seq. tauto.
Qed.

Lemma export_rows_columns_witness :
  exists s rows,
    step_n 2 (new 100 (1 # 2) 2400 1200 (3 # 10) (1 # 5) 30) = Some s
    /\ export_rows (history s) = Ok rows
    /\ map row_t rows = [1%Z; 2%Z]
    /\ map row_high rows = [48%Z; 46%Z].
Proof.
  set (s0 := new 100 (1 # 2) 2400 1200 (3 # 10) (1 # 5) 30).
  destruct (step_n_counts 2 s0) as (s & E & _);
    [vm_compute; discriminate | vm_compute; discriminate
    | vm_compute; discriminate |].
  destruct (export_rows_columns 100 (1 # 2) 2400 1200 (3 # 10) (1 # 5) 30 2 s E)
    as (_ & rows & R & _ & Ct & Ch & _).
  exists s, rows. split; [exact E |]. split; [exact R |].
  split; [exact Ct |]. rewrite Ch.
  revert E. clear. intros E. vm_compute in E. injection E as <-. reflexivity.
Defined.

Lemma last_item_snoc {A : Type} (l : list A) (x : A) :
  last_item (l ++ [x]) = Ok x.
Proof. unfold last_item. now rewrite rev_app_distr. Qed.

(** The count a step records is the count it leaves. *)
Lemma step_records_high (s s' : LemonMarketSimulator) :
  _step s = Some s' -> last_item (h_high (history s')) = Ok (high s').
Proof.
  intros H. destruct (step_inv _ _ H) as (h' & q & p & _ & _ & _ & ->).
  cbn. apply last_item_snoc.
Qed.

Lemma run_loop_periods (n : nat) (s s' : LemonMarketSimulator) :
  run_loop n s = Some s' ->
  exists k : nat,
    (k <= n)%nat
    /\ aligned_growth s s' k
    /\ (k = n -> h_terminal (history s') = h_terminal (history s))
    /\ ((k < n)%nat ->
        high s' = 0%Z
        /\ h_terminal (history s')
           = Some (match h_terminal (history s) with
                   | Some l => l
                   | None => []
                   end ++ [depleted_msg])).
Proof.
  revert s. induction n as [| n IH]; intros s; cbn [run_loop].
  - intros [= <-]. exists 0%nat. unfold aligned_growth.
    repeat split; try lia; rewrite ?Nat.add_0_r; reflexivity.
  - destruct (high s =? 0)%Z eqn:E0.
    + intros [= <-]. exists 0%nat. apply Z.eqb_eq in E0.
      unfold aligned_growth. cbn.
      repeat split; try lia; rewrite ?Nat.add_0_r; reflexivity.
    + destruct (_step s) as [s1 |] eqn:E1; [| discriminate].
      intros H. destruct (IH s1 H) as (k & Hk & G & T1 & T2).
      destruct (step_inv _ _ E1) as (h' & q & p & _ & _ & _ & Es1).
      exists (S k). split; [lia |].
      assert (HT : h_terminal (history s1) = h_terminal (history s))
        by (rewrite Es1; reflexivity).
      assert (HG : aligned_growth s s1 1)
        by (rewrite Es1; unfold aligned_growth; cbn; rewrite !length_app; cbn; lia).
      split; [| split].
      * unfold aligned_growth in *. lia.
      * intros K. rewrite T1 by lia. exact HT.
      * intros K. rewrite <- HT. apply T2. lia.
Qed.

(** X8.  [run] records at most [steps] periods.  It appends the
    "all high-quality cars have left" message to the ["terminal"] log
    exactly when it stops before [steps] periods are recorded, and then no
    high-quality seller is left; when all [steps] periods are recorded the
    log is left as it was. *)
Theorem run_periods (s s' : LemonMarketSimulator) :
  run s = Some s' ->
  exists k : nat,
    (k <= Z.to_nat (steps s))%nat
    /\ aligned_growth s s' k
    /\ (k = Z.to_nat (steps s) ->
        h_terminal (history s') = h_terminal (history s))
    /\ ((k < Z.to_nat (steps s))%nat ->
        high s' = 0%Z
        /\ h_terminal (history s')
           = Some (match h_terminal (history s) with
                   | Some l => l
                   | None => []
                   end ++ [depleted_msg])).
Proof. apply run_loop_periods. Qed.

Lemma run_periods_witness :
  exists s' k,
    run (new 10 0 2400 1200 (3 # 10) (1 # 5) 30) = Some s'
    /\ (k <= 30)%nat
    /\ aligned_growth (new 10 0 2400 1200 (3 # 10) (1 # 5) 30) s' k
    /\ high s' = 0%Z
    /\ h_terminal (history s') = Some [depleted_msg].
Proof.
  set (s0 := new 10 0 2400 1200 (3 # 10) (1 # 5) 30).
  assert (E : run s0 = Some (_log_terminal s0 depleted_msg))
    by (vm_compute; reflexivity).
  destruct (run_periods s0 _ E) as (k & Hk & G & T1 & T2).
  exists (_log_terminal s0 depleted_msg), k.
  split; [exact E |]. split; [exact Hk |]. split; [exact G |].
  split; reflexivity.
Defined.




Lemma same_but_terminal_refl (s : LemonMarketSimulator) : same_but_terminal s s.
Proof. unfold same_but_terminal. tauto. Qed.

Lemma same_but_terminal_log (s : LemonMarketSimulator) (msg : string) :
  same_but_terminal (_log_terminal s msg) s.
Proof. unfold same_but_terminal, _log_terminal. cbn. tauto. Qed.

(** A step on a market without high-quality sellers never divides, leaves
    the count at zero and records it. *)
Lemma step_empty (s : LemonMarketSimulator) :
  high s = 0%Z -> exists s1, _step s = Some s1 /\ high s1 = 0%Z.
Proof.
  intros H. unfold _step, exit_high. rewrite H.
  rewrite andb_false_r. eexists. split; reflexivity.
Qed.

(** X10.  Started with at least one high-quality seller, the loop of [run]
    (check, then step) and the loop of [_on_run] (step, then check) either
    both hit the division by zero or end in simulators that agree on every
    field and every history list, the ["terminal"] log apart.  Started
    with none, [run] records nothing and logs the depletion, while
    [_on_run] still records one period. *)
Theorem run_and_on_run_agree (n : nat) (s : LemonMarketSimulator) :
  (high s <> 0%Z ->
   match run_loop n s, on_run_loop n s with
   | Some a, Ok b => same_but_terminal a b
   | None, Raise ZeroDivisionError => True
   | _, _ => False
   end)
  /\ (high s = 0%Z ->
      run_loop (S n) s = Some (_log_terminal s depleted_msg)
      /\ exists s1,
           _step s = Some s1 /\ on_run_loop (S n) s = Ok s1
           /\ List.length (h_high (history s1))
              = S (List.length (h_high (history s)))).
Proof.
  split.
  - revert s. induction n as [| n IH]; intros s H0.
    + cbn. apply same_but_terminal_refl.
    + cbn [run_loop on_run_loop].
      apply Z.eqb_neq in H0. rewrite H0.
      destruct (_step s) as [s1 |] eqn:E1; [| exact I].
      rewrite (step_records_high _ _ E1).
      destruct (high s1 =? 0)%Z eqn:E0.
      * destruct n as [| n]; cbn [run_loop].
        -- apply same_but_terminal_refl.
        -- rewrite E0. apply same_but_terminal_log.
      * apply IH. now apply Z.eqb_neq.
  - intros H0. cbn [run_loop on_run_loop].
    rewrite (proj2 (Z.eqb_eq _ _) H0). split; [reflexivity |].
    destruct (step_empty s H0) as (s1 & E1 & H1).
    exists s1. rewrite E1, (step_records_high _ _ E1), H1. cbn.
    repeat split.
    destruct (step_inv _ _ E1) as (h' & q & p & _ & _ & _ & ->).
    cbn. rewrite length_app. cbn. lia.
Qed.

Lemma run_and_on_run_agree_witness :
  match run_loop 3 (new 100 (1 # 2) 2400 1200 (3 # 10) (1 # 5) 30),
        on_run_loop 3 (new 100 (1 # 2) 2400 1200 (3 # 10) (1 # 5) 30) with
  | Some a, Ok b => same_but_terminal a b
  | None, Raise ZeroDivisionError => True
  | _, _ => False
  end.
Proof.
  apply (proj1 (run_and_on_run_agree 3
                  (new 100 (1 # 2) 2400 1200 (3 # 10) (1 # 5) 30))).
  vm_compute. discriminate.
Defined.





(** With full trust and no lemons a step changes nothing but the
    history. *)
Lemma step_steady (s : LemonMarketSimulator) :
  steady s ->
  exists s', _step s = Some s' /\ steady s' /\ high s' = high s
             /\ Vh s' = Vh s
             /\ h_high (history s') = h_high (history s) ++ [high s]
             /\ exists p, h_price (history s') = h_price (history s) ++ [p]
                          /\ p == Vh s.
Proof.
  intros (Ht & Hl & Hh).
  assert (Hp : tau s * Vh s + (1 - tau s) * Vl s == Vh s)
    by (rewrite Ht; ring).
  assert (Hq : inject_Z (high s) / inject_Z (Z.max (high s + low s) 1) == 1).
  { rewrite Hl, Z.add_0_r, Z.max_l by lia.
    apply Qmult_inv_r. change 0 with (inject_Z 0). rewrite inject_Z_injective. lia. }
  unfold _step, exit_high.
  rewrite (proj2 (ltb_false _ _)) by (rewrite Hp; apply Qle_refl).
  cbn [andb]. eexists. split; [reflexivity |]. cbn.
  set (t1 := tau s + beta s * (_ - tau s)).
  assert (H1 : t1 == 1) by (unfold t1; rewrite Hq, Ht; ring).
  assert (Hm : PyNum.min 1 t1 = 1).
  { unfold PyNum.min. rewrite (proj2 (ltb_false _ _)); [reflexivity |].
    rewrite H1. apply Qle_refl. }
  rewrite Hm. change (PyNum.max 0 1) with 1.
  repeat split; trivial; try reflexivity.
  eexists. split; [reflexivity | exact Hp].
Qed.

Lemma step_n_steady (n : nat) (s : LemonMarketSimulator) :
  steady s ->
  exists s' prices,
    step_n n s = Some s' /\ steady s' /\ high s' = high s
    /\ h_high (history s') = h_high (history s) ++ repeat (high s) n
    /\ h_price (history s') = h_price (history s) ++ prices
    /\ List.length prices = n
    /\ Forall (fun p => p == Vh s) prices.
Proof.
  revert s. induction n as [| n IH]; intros s S0.
  - exists s, []. cbn. rewrite !app_nil_r.
    split; [reflexivity |]. split; [exact S0 |]. repeat split. constructor.
  - destruct (step_steady s S0) as (s1 & E1 & S1 & H1 & V1 & Hh & p & Hp & Ep).
    destruct (IH s1 S1) as (s' & prices & E & S' & H' & Hh' & Hp' & Len & F).
    exists s', (p :: prices). cbn [step_n]. rewrite E1.
    split; [exact E |]. split; [exact S' |]. split; [congruence |].
    split; [| split; [| split]].
    + rewrite Hh', Hh, H1, <- app_assoc. reflexivity.
    + rewrite Hp', Hp, <- app_assoc. reflexivity.
    + cbn. now rewrite Len.
    + constructor; [exact Ep |]. rewrite V1 in F. exact F.
Qed.

(** X12.  A market built with only high-quality cars ([q0 = 1], at least
    one car) never moves: every step succeeds, whatever the values and
    speeds, nobody exits, trust stays at one, and every recorded price is
    [V_high]. *)
Theorem all_good_market_steady
    (total : Z) (q0 V_high V_low b g : Q) (T : Z) (n : nat) :
  (1 <= total)%Z -> q0 == 1 ->
  exists s,
    step_n n (new total q0 V_high V_low b g T) = Some s
    /\ high s = total /\ low s = 0%Z /\ tau s == 1
    /\ h_high (history s) = repeat total n
    /\ List.length (h_price (history s)) = n
    /\ Forall (fun p => p == V_high) (h_price (history s)).
Proof.
  intros Ht Hq.
  assert (Hr : PyNum.round (inject_Z total * q0) = total).
  { rewrite <- (round_Z total) at 2. apply round_comp. rewrite Hq. ring. }
  assert (S0 : steady (new total q0 V_high V_low b g T)).
  { unfold steady. cbn. rewrite Hr. repeat split; trivial; lia. }
  destruct (step_n_steady n _ S0) as (s & prices & E & (T1 & L1 & _) & H1 & Hh & Hp & Len & F).
  exists s. cbn in H1, Hh, Hp, F. rewrite Hr in H1, Hh.
  split; [exact E |]. rewrite Hp. tauto.
Qed.

Lemma all_good_market_steady_witness :
  exists s,
    step_n 5 (new 100 1 2400 1200 (3 # 10) (1 # 5) 30) = Some s
    /\ high s = 100%Z /\ low s = 0%Z /\ tau s == 1
    /\ h_high (history s) = repeat 100%Z 5
    /\ List.length (h_price (history s)) = 5%nat
    /\ Forall (fun p => p == 2400) (h_price (history s)).
Proof.
  apply (all_good_market_steady 100 1 2400 1200 (3 # 10) (1 # 5) 30 5).
  - lia.
  - reflexivity.
Defined.

(** After at least one period, and with [Vh] not zero, the loop of
    [_on_run] completes and the last history entries are there to read. *)
Lemma on_run_loop_total (n : nat) (s : LemonMarketSimulator) :
  ~ Vh s == 0 ->
  exists s' q p,
    on_run_loop (S n) s = Ok s'
    /\ (high s' <= high s)%Z
    /\ last_item (h_high (history s')) = Ok (high s')
    /\ last_item (h_q (history s')) = Ok q
    /\ last_item (h_price (history s')) = Ok p.
Proof.
  revert s. induction n as [| n IH]; intros s HV;
    destruct (step_total s HV) as [s1 E1];
    pose proof (step_records_high _ _ E1) as R1;
    destruct (step_inv _ _ E1) as (h' & q & p & Ex & _ & _ & Es1);
    apply exit_high_bounds in Ex; destruct Ex as [Ex _];
    assert (Hle : (high s1 <= high s)%Z) by (rewrite Es1; exact Ex);
    assert (Rq : last_item (h_q (history s1)) = Ok q)
      by (rewrite Es1; cbn; apply last_item_snoc);
    assert (Rp : last_item (h_price (history s1)) = Ok p)
      by (rewrite Es1; cbn; apply last_item_snoc);
    cbn [on_run_loop]; rewrite E1, R1.
  - destruct (high s1 =? 0)%Z; exists s1, q, p; tauto.
  - destruct (high s1 =? 0)%Z eqn:E0.
    + exists s1, q, p. tauto.
    + assert (HV1 : ~ Vh s1 == 0) by (rewrite Es1; exact HV).
      destruct (IH s1 HV1) as (s' & q' & p' & E & L & R).
      exists s', q', p'. cbn [on_run_loop] in E. rewrite E.
      split; [reflexivity |]. split; [lia | exact R].
Qed.

(** X13.  [_on_run] on a fresh simulator raises [IndexError] when the
    number of periods is zero or negative, because its summary reads the
    last entry of an empty history.  With at least one period and
    [V_high] not zero it completes, and its summary reports the initial
    count and price, the count the simulator ends with, which is never
    above the initial one, and a collapse exactly when that count is
    zero. *)
Theorem on_run_summary (s : LemonMarketSimulator) :
  aligned (history s) 0 ->
  ((steps s <= 0)%Z -> _on_run s = Raise IndexError)
  /\ ((1 <= steps s)%Z -> ~ Vh s == 0 ->
      exists s' sm,
        _on_run s = Ok (s', sm)
        /\ init_high sm = high s
        /\ init_price sm = tau s * Vh s + (1 - tau s) * Vl s
        /\ final_high sm = high s'
        /\ (final_high sm <= init_high sm)%Z
        /\ (collapsed sm = true <-> high s' = 0%Z)).
Proof.
  intros (A1 & A2 & A3 & A4 & A5). split.
  - intros H. unfold _on_run.
    replace (Z.to_nat (steps s)) with 0%nat by lia. cbn [on_run_loop].
    apply length_zero_iff_nil in A1. rewrite A1. reflexivity.
  - intros H HV. unfold _on_run.
    destruct (Z.to_nat (steps s)) as [| n] eqn:En; [lia |].
    destruct (on_run_loop_total n s HV) as (s' & q & p & E & L & R1 & R2 & R3).
    rewrite E, R1, R2, R3. eexists. eexists. split; [reflexivity |].
    cbn. repeat split; trivial; apply Z.eqb_eq.
Qed.

Lemma on_run_summary_witness :
  exists s' sm,
    _on_run (new 100 (1 # 2) 2400 1200 (3 # 10) (1 # 5) 2) = Ok (s', sm)
    /\ init_high sm = 50%Z
    /\ final_high sm = high s'
    /\ (final_high sm <= init_high sm)%Z.
Proof.
  destruct (proj2 (on_run_summary (new 100 (1 # 2) 2400 1200 (3 # 10) (1 # 5) 2)
                     (new_aligned _ _ _ _ _ _ _)))
    as (s' & sm & E & I & _ & F & L & _).
  - vm_compute. discriminate.
  - vm_compute. discriminate.
  - exists s', sm. tauto.
Defined.

End LemonMoreFacts.

(** ** Concavity of the logarithm and of powers *)

Module ConcavityFacts.
Import Lra.
Local Open Scope R_scope.


Lemma ln_mono (x y : R) : 0 < x -> x <= y -> ln x <= ln y.
Proof.
  intros Hx [H | ->]; [left; now apply ln_increasing | right; reflexivity].
Qed.









End ConcavityFacts.

(** ** Insurance moral hazard: the decision engine *)

Module MoralHazardMoreFacts.
Import Lra MoralHazard MoralHazardMore MoralHazardFacts ConcavityFacts.
Local Open Scope R_scope.

Lemma utility_pos (w gamma : R) : 0 < w -> _utility w gamma = Fin (u_fin gamma w).
Proof.
  intros H. unfold _utility, u_fin.
  rewrite (proj2 (Rleb_false _ _) H). now destruct (Rltb _ tol).
Qed.

Lemma band_excludes_one (gamma : R) :
  Rltb (Rabs (gamma - 1)) tol = false -> gamma <> 1.
Proof.
  intros H ->. apply Rltb_false in H.
  replace (1 - 1) with 0 in H by lra. rewrite Rabs_R0 in H.
  pose proof tol_pos. lra.
Qed.

Lemma u_fin_mono (gamma a b : R) :
  0 < a -> a <= b -> u_fin gamma a <= u_fin gamma b.
Proof.
  intros Ha Hab. unfold u_fin. destruct (Rltb _ tol) eqn:E.
  - now apply ln_mono.
  - apply crra_mono; trivial. now apply band_excludes_one.
Qed.

(** More wealth is never strictly worse. *)
Lemma utility_not_better (gamma a b : R) :
  b <= a -> xltb (_utility a gamma) (_utility b gamma) = false.
Proof.
  intros Hba. destruct (Rle_dec b 0) as [Hb | Hb].
  - rewrite (utility_nonpositive b gamma Hb).
    now destruct (_utility a gamma).
  - rewrite !utility_pos by lra. cbn. apply Rltb_false.
    apply u_fin_mono; lra.
Qed.



(** X14.  When the device costs something ([c_d >= 0]) an insured owner
    never installs it; [_decide] then never answers category 2, and with
    [0 <= p], [0 <= q] and [p + q <= 1] the actual theft probability is
    [p + q] and the extra expected payout is [d * q], which [_decide]
    reports when the owner insures and replaces by [0] when not. *)
Theorem insured_owner_skips_device (gamma q w d p p_d c_d : R) :
  0 <= c_d ->
  install_ins (_simulate w d p p_d c_d q gamma) = false
  /\ fst (_decide gamma q w d p p_d c_d) <> 2%Z
  /\ (0 <= p -> 0 <= q -> p + q <= 1 ->
      prob_actual (_simulate w d p p_d c_d q gamma) = p + q
      /\ extra_loss (_simulate w d p p_d c_d q gamma) = d * q
      /\ snd (_decide gamma q w d p p_d c_d)
         = if would_insure (_simulate w d p p_d c_d q gamma) then d * q else 0).
Proof.
  intros Hc.
  assert (HI : xgtb (_utility (w - d * p - c_d) gamma)
                 (_utility (w - d * p) gamma) = false)
    by (apply utility_not_better; lra).
  unfold _simulate, _decide. cbv zeta. cbn [install_ins prob_actual extra_loss
    would_insure fst snd].
  rewrite HI. split; [reflexivity |]. split.
  - rewrite andb_false_r.
    repeat match goal with |- context [if ?b then _ else _] => destruct b end;
      discriminate.
  - intros Hp Hq Hpq.
    assert (E : Rmin_py (Rmax_py (p + q) 0) 1 = p + q).
    { unfold Rmax_py. rewrite (proj2 (Rltb_false _ _)) by lra.
      unfold Rmin_py. now rewrite (proj2 (Rltb_false _ _)) by lra. }
    rewrite E. split; [reflexivity |].
    fold (xmax (xadd (xscale (1 - p) (_utility w gamma))
                  (xscale p (_utility (w - d) gamma)))
            (xadd (xscale (1 - p_d) (_utility (w - c_d) gamma))
               (xscale p_d (_utility (w - d - c_d) gamma)))).
    destruct (Rltb p (p + q)) eqn:L.
    + rewrite andb_true_r. split; [ring |].
      unfold xmax, xgtb.
      destruct (xgeb _ _); [ring | reflexivity].
    + apply Rltb_false in L. assert (q = 0) by lra. subst q.
      rewrite andb_false_r. split; [ring |].
      unfold xmax, xgtb. destruct (xgeb _ _); ring.
Qed.

Lemma insured_owner_skips_device_witness :
  install_ins (_simulate 100000 20000 (25 / 100) (15 / 100) 1950 (1 / 10) 1)
  = false
  /\ extra_loss (_simulate 100000 20000 (25 / 100) (15 / 100) 1950 (1 / 10) 1)
     = 20000 * (1 / 10).
Proof.
  destruct (insured_owner_skips_device 1 (1 / 10) 100000 20000 (25 / 100)
              (15 / 100) 1950 ltac:(lra)) as (H1 & _ & H3).
  split; [exact H1 |]. apply H3; lra.
Defined.

(** [_decide] and [_simulate] compare the same utilities. *)
Lemma decide_flags (gamma q w d p p_d c_d : R) :
  let D := _simulate w d p p_d c_d q gamma in
  _decide gamma q w d p p_d c_d
  = (if negb (would_insure D) && negb (install_no_ins D) then 0%Z
     else if negb (would_insure D) && install_no_ins D then 1%Z
     else if would_insure D && install_ins D then 2%Z
     else 3%Z,
     if would_insure D then extra_loss D else 0).
Proof.
  unfold _decide, _simulate. cbv zeta.
  cbn [would_insure install_no_ins install_ins extra_loss].
  unfold xmax, xgtb. f_equal.
  destruct (xgeb _ _); [| reflexivity].
  cbn [andb]. reflexivity.
Qed.

(** X15.  The category [_decide] returns encodes the two choices
    [_simulate] makes on the same inputs: [0] and [1] mean no insurance,
    without and with the device the uninsured owner would install; [2] and
    [3] mean insurance, with and without the device the insured owner would
    install.  The payout [_decide] returns is the one of [_simulate] when
    the owner insures and zero when not, so a non-zero payout only comes
    with categories [2] and [3]. *)
Theorem decide_matches_simulate (gamma q w d p p_d c_d : R) :
  let D := _simulate w d p p_d c_d q gamma in
  let cat := fst (_decide gamma q w d p p_d c_d) in
  let extra := snd (_decide gamma q w d p p_d c_d) in
  (cat = 0%Z <-> would_insure D = false /\ install_no_ins D = false)
  /\ (cat = 1%Z <-> would_insure D = false /\ install_no_ins D = true)
  /\ (cat = 2%Z <-> would_insure D = true /\ install_ins D = true)
  /\ (cat = 3%Z <-> would_insure D = true /\ install_ins D = false)
  /\ extra = (if would_insure D then extra_loss D else 0)
  /\ (extra <> 0 -> cat = 2%Z \/ cat = 3%Z).
Proof.
  cbv zeta. rewrite decide_flags. cbn [fst snd].
  destruct (would_insure _), (install_no_ins _), (install_ins _); cbn;
    repeat split; intros; try discriminate; try tauto; try lia;
    try (intuition discriminate); auto.
Qed.

Lemma decide_matches_simulate_witness :
  let gamma := 1 in
  let D := _simulate 100000 20000 (25 / 100) (15 / 100) 1950 (1 / 10) gamma in
  snd (_decide gamma (1 / 10) 100000 20000 (25 / 100) (15 / 100) 1950)
  = (if would_insure D then extra_loss D else 0).
Proof.
  intros gamma D.
  exact (proj1 (proj2 (proj2 (proj2 (proj2
    (decide_matches_simulate gamma (1 / 10) 100000 20000 (25 / 100)
       (15 / 100) 1950)))))).
Defined.

(** With a device that costs something, the insured owner's utility with
    the device is never the larger one. *)
Lemma insured_skips (x c_d gamma : R) :
  0 <= c_d -> xgtb (_utility (x - c_d) gamma) (_utility x gamma) = false.
Proof. intros H. apply utility_not_better. lra. Qed.



(** X17.  An owner whom a theft would ruin ([w <= d]) and who faces theft
    probabilities strictly between 0 and 1, with and without the device,
    has expected utility [-inf] without insurance, so [_simulate] reports
    that the owner insures and installs nothing without insurance.  With
    [p = 0] exactly the product [0 * -inf] is undefined, every comparison
    with it fails, and the same owner is reported as not insuring. *)
Theorem ruined_owner_insures (gamma q w d p_d c_d : R) :
  w <= d -> 0 <= c_d ->
  (forall p, 0 < p < 1 -> 0 < p_d < 1 ->
     EU_no_ins_opt (_simulate w d p p_d c_d q gamma) = NInf
     /\ would_insure (_simulate w d p p_d c_d q gamma) = true
     /\ install_no_ins (_simulate w d p p_d c_d q gamma) = false)
  /\ (EU_no_ins_opt (_simulate w d 0 p_d c_d q gamma) = NaN
      /\ would_insure (_simulate w d 0 p_d c_d q gamma) = false
      /\ install_no_ins (_simulate w d 0 p_d c_d q gamma) = false
      /\ fst (_decide gamma q w d 0 p_d c_d) = 0%Z).
Proof.
  intros Hw Hc.
  assert (U1 : _utility (w - d) gamma = NInf) by (apply utility_nonpositive; lra).
  assert (U2 : _utility (w - d - c_d) gamma = NInf)
    by (apply utility_nonpositive; lra).
  split.
  - intros p Hp Hpd.
    unfold _simulate. cbv zeta.
    cbn [EU_no_ins_opt would_insure install_no_ins]. rewrite U1, U2.
    assert (S1 : xscale p NInf = NInf)
      by (cbn; now rewrite (proj2 (Rltb_true 0 p)) by lra).
    assert (S2 : xscale p_d NInf = NInf)
      by (cbn; now rewrite (proj2 (Rltb_true 0 p_d)) by lra).
    rewrite S1, S2.
    assert (A1 : forall x, x = NInf \/ (exists v, x = Fin v) -> xadd x NInf = NInf)
      by (intros x [-> | [v ->]]; reflexivity).
    rewrite !A1.
    + unfold xmax, xgtb, xgeb. cbn.
      repeat split. now destruct (_utility (w - d * p) gamma) eqn:E;
        try reflexivity; unfold _utility in E;
        destruct (Rleb _ 0); try discriminate; destruct (Rltb _ tol); discriminate.
    + unfold _utility. destruct (Rleb (w - c_d) 0).
      * left. cbn. now rewrite (proj2 (Rltb_true 0 (1 - p_d))) by lra.
      * right. destruct (Rltb _ tol); cbn; eauto.
    + unfold _utility. destruct (Rleb w 0).
      * left. cbn. now rewrite (proj2 (Rltb_true 0 (1 - p))) by lra.
      * right. destruct (Rltb _ tol); cbn; eauto.
  - assert (N : xadd (xscale (1 - 0) (_utility w gamma))
                  (xscale 0 (_utility (w - d) gamma)) = NaN).
    { rewrite U1. cbn [xscale].
      rewrite (proj2 (Rltb_false 0 0)) by lra.
      now destruct (xscale (1 - 0) (_utility w gamma)). }
    assert (S : EU_no_ins_opt (_simulate w d 0 p_d c_d q gamma) = NaN
                /\ would_insure (_simulate w d 0 p_d c_d q gamma) = false
                /\ install_no_ins (_simulate w d 0 p_d c_d q gamma) = false).
    { unfold _simulate. cbv zeta.
      cbn [EU_no_ins_opt would_insure install_no_ins]. rewrite N.
      unfold xmax, xgtb, xgeb. cbn [xltb].
      split; [reflexivity |]. split; [| now destruct (xadd _ _)].
      now destruct (_utility (w - d * 0) gamma). }
    destruct S as (S1 & S2 & S3). repeat split; trivial.
    rewrite decide_flags. cbn [fst]. rewrite S2, S3. reflexivity.
Qed.

Lemma ruined_owner_insures_witness :
  would_insure (_simulate 10000 20000 (1 / 4) (3 / 20) 1950 0 1) = true
  /\ would_insure (_simulate 10000 20000 0 (3 / 20) 1950 0 1) = false.
Proof.
  destruct (ruined_owner_insures 1 0 10000 20000 (3 / 20) 1950)
    as (A & _ & B & _); try lra.
  split; [apply (A (1 / 4)); lra | exact B].
Defined.

(** What holds of every answer of [_decide]. *)
Lemma decide_cell (gamma q w d p p_d c_d : R) :
  0 <= d ->
  (0 <= fst (_decide gamma q w d p p_d c_d) <= 3)%Z
  /\ 0 <= snd (_decide gamma q w d p p_d c_d)
  /\ (snd (_decide gamma q w d p p_d c_d) <> 0 ->
      fst (_decide gamma q w d p p_d c_d) = 2%Z
      \/ fst (_decide gamma q w d p p_d c_d) = 3%Z).
Proof.
  intros Hd. unfold _decide. cbv zeta. cbn [fst snd].
  set (wi := xgeb _ _). set (ini := xgtb _ _). set (ins := xgtb _ _).
  set (pa := Rmin_py _ 1).
  split; [| split].
  - destruct wi, ini, ins; cbn; lia.
  - destruct wi; cbn [andb]; [| lra].
    destruct (Rltb p pa) eqn:L; [| lra]. apply Rltb_true in L. nra.
  - destruct wi; cbn [andb negb]; [| intros N; lra].
    intros _. destruct ins; auto.
Qed.

(** Without a moral-hazard increment, and with a device that does not
    raise the theft probability, there is no extra payout. *)
Lemma decide_no_increment (gamma w d p p_d c_d : R) :
  0 <= p -> p_d <= p -> snd (_decide gamma 0 w d p p_d c_d) = 0.
Proof.
  intros Hp Hpd. unfold _decide. cbv zeta. cbn [snd].
  set (wi := xgeb _ _). set (ins := xgtb _ _).
  assert (L : Rltb p (Rmin_py (Rmax_py ((if ins then p_d else p) + 0) 0) 1)
              = false).
  { apply Rltb_false. unfold Rmax_py.
    destruct ins;
      (destruct (Rltb (_ + 0) 0) eqn:E1;
       [apply Rltb_true in E1 | apply Rltb_false in E1]);
      unfold Rmin_py;
      (destruct (Rltb 1 _) eqn:E2;
       [apply Rltb_true in E2 | apply Rltb_false in E2]); lra. }
  rewrite L, andb_false_r. reflexivity.
Qed.

(** With a device that costs something, no answer of [_decide] is
    category 2. *)
Lemma decide_never_category_two (gamma q w d p p_d c_d : R) :
  0 <= c_d -> fst (_decide gamma q w d p p_d c_d) <> 2%Z.
Proof.
  intros Hc. rewrite decide_flags. cbn [fst].
  pose proof (insured_skips (w - d * p) c_d gamma Hc) as I.
  assert (I' : install_ins (_simulate w d p p_d c_d q gamma) = false)
    by (unfold _simulate; cbv zeta; cbn [install_ins]; exact I).
  rewrite I', andb_false_r.
  destruct (would_insure _), (install_no_ins _); cbn; discriminate.
Qed.

(** X18.  The policy map is a 100 by 100 grid.  For a non-negative loss
    value every cell holds a category between 0 and 3 and a non-negative
    payout, which is non-zero only in the insured categories 2 and 3; when
    the device costs something no cell holds category 2; and when the
    device does not raise the theft probability ([p_d <= p], [0 <= p])
    the first column, where the increment is zero, holds no payout. *)
Theorem policy_map_cells (w d p p_d c_d : R) :
  0 <= d ->
  List.length (policy_map w d p p_d c_d) = 100%nat
  /\ Forall (fun row =>
       List.length row = 100%nat
       /\ Forall (fun c => (0 <= fst c <= 3)%Z /\ 0 <= snd c
                           /\ (snd c <> 0 -> fst c = 2%Z \/ fst c = 3%Z)) row
       /\ (0 <= c_d -> Forall (fun c => fst c <> 2%Z) row)
       /\ (0 <= p -> p_d <= p -> exists c rest, row = c :: rest /\ snd c = 0))
     (policy_map w d p p_d c_d).
Proof.
  intros Hd. unfold policy_map. split; [now rewrite length_map, length_seq |].
  apply Forall_forall. intros row Hrow.
  apply in_map_iff in Hrow. destruct Hrow as (i & <- & _).
  split; [now rewrite length_map, length_seq |].
  split; [| split].
  - apply Forall_forall. intros c Hc.
    apply in_map_iff in Hc. destruct Hc as (j & <- & _).
    apply decide_cell. exact Hd.
  - intros Hc. apply Forall_forall. intros c Hin.
    apply in_map_iff in Hin. destruct Hin as (j & <- & _).
    unfold policy_cell.
    apply (decide_never_category_two _ _ w d p p_d c_d Hc).
  - intros Hp Hpd. change (seq 0 100) with (0%nat :: seq 1 99).
    cbn [map]. eexists. eexists. split; [reflexivity |].
    unfold policy_cell, linspace.
    replace (0 + INR 0 * ((1 - 0) / INR (100 - 1))) with 0
      by (cbn [INR]; lra).
    now apply decide_no_increment.
Qed.

Lemma policy_map_cells_witness :
  List.length (policy_map 100000 20000 (25 / 100) (15 / 100) 1950) = 100%nat
  /\ snd (policy_cell 100000 20000 (25 / 100) (15 / 100) 1950 0 0) = 0.
Proof.
  destruct (policy_map_cells 100000 20000 (25 / 100) (15 / 100) 1950)
    as (L & F); [lra |].
  split; [exact L |].
  unfold policy_map in F. change (seq 0 100) with (0%nat :: seq 1 99) in F.
  cbn [map] in F. apply Forall_inv in F.
  destruct F as (_ & _ & _ & Z). destruct Z as (c & rest & E & Z); try lra.
  injection E as <- _. exact Z.
Defined.

End MoralHazardMoreFacts.

(** ** Education signalling: when the thresholds separate *)

Module SignalingMoreFacts.
Import PyNum PyNumFacts Signaling.
Local Open Scope Q_scope.

(** The outcome of [_on_calculate] past its guards, with the two defining
    equations of the thresholds. *)
Lemma on_calculate_past_guards (a1 a2 c1 c2 e_max : Q) :
  a1 < a2 -> c2 < c1 -> ~ c1 == 0 -> ~ c2 == 0 ->
  exists eL eH,
    _on_calculate a1 a2 c1 c2 e_max
    = Thresholds (mkThresholds eL eH (ltb eL eH)
                    (if ltb eL eH then Some ((eL + eH) / 2) else None))
    /\ eL * c1 == a2 - a1 /\ eH * c2 == a2 - a1.
Proof.
  intros Ha Hc H1 H2. unfold _on_calculate. cbv zeta.
  rewrite (proj2 (leb_false _ _) Ha), (proj2 (leb_false _ _) Hc).
  rewrite (fdiv_some _ _ H1), (fdiv_some _ _ H2).
  eexists. eexists. split; [reflexivity |].
  split; rewrite Qmult_comm; apply Qmult_div_r; assumption.
Qed.

(** X19.  With positive unit costs, [0 < c2 < c1], and a wage premium,
    [a1 < a2], [_on_calculate] always finds a separating equilibrium: the
    thresholds satisfy [0 < e_L < e_H], the recommended signal lies
    strictly between them, and at that signal education costs the high
    type less than the wage premium and the low type more. *)
Theorem positive_costs_separate (a1 a2 c1 c2 e_max : Q) :
  a1 < a2 -> 0 < c2 -> c2 < c1 ->
  exists t e,
    _on_calculate a1 a2 c1 c2 e_max = Thresholds t
    /\ separating t = true /\ e_star t = Some e
    /\ 0 < e_L t /\ e_L t < e /\ e < e_H t
    /\ c2 * e < a2 - a1 /\ a2 - a1 < c1 * e.
Proof.
  intros Ha H2 Hc.
  destruct (on_calculate_past_guards a1 a2 c1 c2 e_max Ha Hc)
    as (eL & eH & E & EL & EH); [lra | lra |].
  assert (PL : 0 < eL) by nra.
  assert (PH : 0 < eH) by nra.
  assert (Hlt : eL < eH) by nra.
  rewrite E. rewrite (proj2 (ltb_true _ _) Hlt).
  eexists. eexists. split; [reflexivity |]. cbn.
  split; [reflexivity |]. split; [reflexivity |].
  set (e := (eL + eH) / 2).
  assert (Ee : e * 2 == eL + eH) by (unfold e; field).
  repeat split; nra.
Qed.

Lemma positive_costs_separate_witness :
  exists t e,
    _on_calculate 1 2 (3 # 2) 1 3 = Thresholds t
    /\ separating t = true /\ e_star t = Some e
    /\ 0 < e_L t /\ e_L t < e /\ e < e_H t
    /\ 1 * e < 2 - 1 /\ 2 - 1 < (3 # 2) * e.
Proof.
  apply (positive_costs_separate 1 2 (3 # 2) 1 3); reflexivity.
Defined.

(** X20.  Past the two guards and with unit costs different from zero,
    [_on_calculate] reports that no separating equilibrium exists exactly
    when the unit costs have opposite signs, [c2 < 0 < c1]; it then
    recommends no signal. *)
Theorem no_separation_iff_opposite_signs (a1 a2 c1 c2 e_max : Q) :
  a1 < a2 -> c2 < c1 -> ~ c1 == 0 -> ~ c2 == 0 ->
  exists t,
    _on_calculate a1 a2 c1 c2 e_max = Thresholds t
    /\ (separating t = false <-> c2 < 0 /\ 0 < c1)
    /\ (separating t = false -> e_star t = None).
Proof.
  intros Ha Hc H1 H2.
  destruct (on_calculate_past_guards a1 a2 c1 c2 e_max Ha Hc H1 H2)
    as (eL & eH & E & EL & EH).
  rewrite E. eexists. split; [reflexivity |]. cbn.
  split.
  - rewrite ltb_false. split.
    + intros Hle.
      destruct (Qlt_le_dec c2 0) as [N2 | P2];
        destruct (Qlt_le_dec 0 c1) as [P1 | N1]; try (split; assumption).
      * exfalso. assert (c1 < 0) by (destruct (Qle_lt_or_eq _ _ N1); [assumption | contradiction]).
        assert (eL < 0) by nra. assert (eH < 0) by nra. nra.
      * exfalso. assert (0 < c2) by (destruct (Qle_lt_or_eq _ _ P2) as [? | Q0]; [assumption | symmetry in Q0; contradiction]).
        assert (0 < eL) by nra. assert (0 < eH) by nra. nra.
      * exfalso. lra.
    + intros [N2 P1]. assert (0 < eL) by nra. assert (eH < 0) by nra. lra.
  - intros ->. reflexivity.
Qed.

Lemma no_separation_iff_opposite_signs_witness :
  exists t,
    _on_calculate 1 2 1 (-1) 3 = Thresholds t
    /\ (separating t = false <-> -1 < 0 /\ 0 < 1)
    /\ (separating t = false -> e_star t = None).
Proof.
  apply (no_separation_iff_opposite_signs 1 2 1 (-1) 3);
    vm_compute; reflexivity || discriminate.
Defined.

End SignalingMoreFacts.

(** ** Risk preference: certainty equivalents *)

Module RiskPreferenceFacts.
Import Lra MoralHazard MoralHazardFacts ConcavityFacts RiskPreference.
Local Open Scope R_scope.






(** X21.  In the neutral band ([|g - 1| < 0.001]) [_compute] uses the
    identity as utility: for every probability and every pair of outcomes
    the certainty equivalent is the expected value, their difference is
    zero, and the remark is the one for risk neutrality. *)
Theorem neutral_band_report (g p w1 w2 : R) :
  Rabs (g - 1) < / 1000 ->
  exists r,
    _compute g p w1 w2 = Some r
    /\ pref r = neutral
    /\ Ew r = p * w1 + (1 - p) * w2
    /\ CE r = Ew r /\ diff r = 0 /\ note r = no_premium.
Proof.
  intros H. apply Rltb_true in H.
  unfold _compute, u, u_inv, _classify_gamma. rewrite H.
  eexists. split; [reflexivity |]. cbn.
  repeat split; try ring.
  unfold _append_note.
  replace (p * w1 + (1 - p) * w2 - (p * w1 + (1 - p) * w2)) with 0 by ring.
  rewrite Rabs_R0. now rewrite (proj2 (Rltb_true 0 (/ 1000000))) by lra.
Qed.

Lemma neutral_band_report_witness :
  exists r,
    _compute 1 (1 / 2) 120 80 = Some r
    /\ pref r = neutral
    /\ Ew r = 1 / 2 * 120 + (1 - 1 / 2) * 80
    /\ CE r = Ew r /\ diff r = 0 /\ note r = no_premium.
Proof.
  apply neutral_band_report.
  replace (1 - 1) with 0 by lra. rewrite Rabs_R0. lra.
Defined.





End RiskPreferenceFacts.

(** ** Principal-agent, the variant of [SimTest/APPUITest5.py] *)

Module Contract5Facts.
Import PyNum PyNumFacts PyExc PrincipalAgent.
Import Contract5.
Local Open Scope Q_scope.

Lemma div_mul (x y : Q) : ~ y == 0 -> x / y * y == x.
Proof. intros H. rewrite Qmult_comm. now apply Qmult_div_r. Qed.

(** X24.  With a positive probability gap, [cost_low <= cost_high] and a
    non-negative high revenue, the [propose_contract] of [APPUITest5.py]
    never raises; it stores unrounded wages with [0 <= w_low <= w_high <=
    res_high] and returns them rounded to cents.  While the wages fit under
    the revenue their gap is exactly [(c_high - c_low) / (p_high - p_low)],
    which leaves the agent indifferent between the efforts; when they do
    not fit, the stored high wage is the high revenue. *)
Theorem propose_contract5_wages (P : PrincipalAI) (c_high c_low : Q) :
  0 < P_p_high P - P_p_low P -> c_low <= c_high -> 0 <= P_res_high P ->
  let s := (c_high - c_low) / (P_p_high P - P_p_low P) in
  let w0 := PyNum.max 0 (P_U_res P + c_high
                         - P_p_high P * (c_high - c_low)
                           / (P_p_high P - P_p_low P)) in
  exists P' wH wL,
    propose_contract P c_high c_low = Ok (P', (round2 wH, round2 wL))
    /\ P_w_high P' = Some wH /\ P_w_low P' = Some wL
    /\ 0 <= wL /\ wL <= wH /\ wH <= P_res_high P
    /\ (w0 + s <= P_res_high P ->
        wL = w0 /\ wH = w0 + s
        /\ _expected_utility (agent_for P c_high c_low) wH wL Effort
           == _expected_utility (agent_for P c_high c_low) wH wL Shirk)
    /\ (P_res_high P < w0 + s -> wH == P_res_high P).
Proof.
  intros Hp Hc HY s w0.
  assert (Hs : s * (P_p_high P - P_p_low P) == c_high - c_low)
    by (apply div_mul; lra).
  assert (Hs0 : 0 <= s) by nra.
  assert (Hw0 : 0 <= w0) by apply max_lower.
  unfold propose_contract. cbv zeta.
  rewrite (proj2 (leb_false _ _) Hp). fold s. fold w0.
  destruct (gtb (w0 + s) (P_res_high P)) eqn:G;
    [apply gtb_true in G | apply gtb_false in G].
  - assert (NZ : ~ w0 + s == 0) by lra.
    rewrite (fdiv_some _ _ NZ).
    set (ratio := P_res_high P / (w0 + s)).
    assert (Hr : ratio * (w0 + s) == P_res_high P) by (apply div_mul; exact NZ).
    assert (Hr0 : 0 <= ratio) by nra.
    eexists. eexists. eexists. split; [reflexivity |]. cbn.
    split; [reflexivity |]. split; [reflexivity |].
    repeat split; try nra; try lra.
  - eexists. eexists. eexists. split; [reflexivity |]. cbn.
    split; [reflexivity |]. split; [reflexivity |].
    repeat split; try lra; unfold _expected_utility, agent_for; cbn; nra.
Qed.

Lemma propose_contract5_wages_witness :
  let P := mkPrincipalAI 20 100 0 (3 # 4) (1 # 4) None None None None in
  exists P' wH wL,
    propose_contract P 25 0 = Ok (P', (round2 wH, round2 wL))
    /\ P_w_high P' = Some wH /\ P_w_low P' = Some wL
    /\ 0 <= wL /\ wL <= wH /\ wH <= 100.
Proof.
  intros P.
  destruct (propose_contract5_wages P 25 0) as (P' & wH & wL & E & S1 & S2 & B);
    try (vm_compute; reflexivity || discriminate).
  exists P', wH, wL. tauto.
Defined.



(** X26.  When the repaired contract leaves the principal less than the
    required profit and the expected wage is positive, [counter_offer]
    answers [None] exactly when the reservation utility plus the cost of
    effort exceeds the expected revenue less the required profit.
    Otherwise it scales both repaired wages by the same factor, and at the
    scaled wages, before rounding, effort pays the agent exactly the
    reservation utility. *)
Theorem counter_offer5_scales
    (A : AgentAI) (R_H R_L w_high w_low pi_min : Q) :
  A_res A = Some (R_H, R_L) -> ~ A_p_high A - A_p_low A == 0 ->
  let s := (A_cost_high_var A - A_cost_low_var A) / (A_p_high A - A_p_low A) in
  let w := repair A s w_high w_low in
  let exp_wage := A_p_high A * fst w + (1 - A_p_high A) * snd w in
  let a_ir := (A_U_res A + A_cost_high_var A) / exp_wage in
  A_p_high A * (R_H - fst w) + (1 - A_p_high A) * (R_L - snd w) < pi_min ->
  0 < exp_wage ->
  (counter_offer A w_high w_low pi_min = Ok None
   <-> A_p_high A * R_H + (1 - A_p_high A) * R_L - pi_min
       < A_U_res A + A_cost_high_var A)
  /\ (A_U_res A + A_cost_high_var A
      <= A_p_high A * R_H + (1 - A_p_high A) * R_L - pi_min ->
      counter_offer A w_high w_low pi_min
      = Ok (Some (round2 (fst w * a_ir), round2 (snd w * a_ir)))
      /\ _expected_utility A (fst w * a_ir) (snd w * a_ir) Effort
         == A_U_res A).
Proof.
  intros HR NZ s w exp_wage a_ir Hpi Hew.
  assert (NE : ~ exp_wage == 0) by lra.
  assert (Ha : a_ir * exp_wage == A_U_res A + A_cost_high_var A)
    by (apply div_mul; exact NE).
  set (a_pi0 := (A_p_high A * R_H + (1 - A_p_high A) * R_L - pi_min) / exp_wage).
  assert (Hb : a_pi0 * exp_wage
               == A_p_high A * R_H + (1 - A_p_high A) * R_L - pi_min)
    by (apply div_mul; exact NE).
  assert (CO : counter_offer A w_high w_low pi_min
               = if leb a_ir a_pi0
                 then Ok (Some (round2 (fst w * a_ir), round2 (snd w * a_ir)))
                 else Ok None).
  { unfold counter_offer. cbv zeta. rewrite (fdiv_some _ _ NZ), HR.
    subst a_ir a_pi0 exp_wage w. unfold repair in *. cbv zeta in *. fold s.
    destruct (ltb (w_high - w_low) s);
      match goal with
      | |- context [ltb ?e (A_U_res A)] => destruct (ltb e (A_U_res A))
      end; cbn [fst snd] in *;
      rewrite (proj2 (geb_false _ _) Hpi), !(fdiv_some _ _ NE); reflexivity. }
  rewrite CO. split.
  - destruct (leb a_ir a_pi0) eqn:L;
      [apply leb_true in L | apply leb_false in L].
    + split; [discriminate | intros K; exfalso; nra].
    + split; [intros _; nra | reflexivity].
  - intros K. assert (L : a_ir <= a_pi0) by nra.
    apply leb_true in L. rewrite L. split; [reflexivity |].
    unfold _expected_utility. subst exp_wage. nra.
Qed.

Lemma counter_offer5_scales_witness :
  let A := mkAgentAI 10 5 0 (4 # 5) (2 # 5) (Some (100, 20)) None in
  let w := repair A ((10 - 5) / ((4 # 5) - (2 # 5))) 200 100 in
  let a_ir := (0 + 10) / ((4 # 5) * fst w + (1 - (4 # 5)) * snd w) in
  counter_offer A 200 100 0
  = Ok (Some (round2 (fst w * a_ir), round2 (snd w * a_ir)))
  /\ _expected_utility A (fst w * a_ir) (snd w * a_ir) Effort == 0.
Proof.
  intros A w a_ir.
  apply (proj2 (counter_offer5_scales A 100 20 200 100 0 eq_refl
                  ltac:(vm_compute; discriminate)
                  ltac:(vm_compute; reflexivity)
                  ltac:(vm_compute; reflexivity))).
  vm_compute. discriminate.
Defined.

End Contract5Facts.
